(** * ElevateRoute: the route-to-statistics pipeline of [RouteService]

    A shallow embedding of [src/services/routeService.ts] (path sampling,
    elevation enrichment, route statistics, difficulty classification,
    steep-section alerts) and of [getSafetyScore] from
    [src/components/SafetyAlerts.tsx].

    Number model.  There are two readings of a TypeScript [number]
    that holds a measurement (a coordinate, an elevation, a distance, a
    grade).

    - The exact reading: the number is a rational [Q], and arithmetic
      neither rounds nor overflows.  The only operation of the source
      that leaves the finite numbers is [/].  Where the source divides
      under a guard that makes the divisor positive
      ([distanceChange > 0], [gradeCount > 0]) or by a non-zero literal,
      the quotient is [Qdiv]; where it divides without a guard the
      quotient is a [jsnum], which adds [Infinity], [-Infinity] and
      [NaN].  Comparisons with literals, ladders of thresholds, counts
      and the order of effects are the same in both readings.

    - The double reading: the number is an IEEE 754 binary64
      ([PrimFloat.float]) and [+], [-], [*], [/] are the rounding
      operations of the machine.  The path sampler and the statistics
      loop are also given in this reading ([sampleRoutePointsDouble],
      [calculateRouteStatsD]); the properties that depend on rounding
      (which index a sample reads, whether gain and loss balance) are
      settled there.

    Integer counters (loop indices, scores, counts) are [nat] or [Z]. *)

From Stdlib Require PrimFloat FloatOps SpecFloat FloatAxioms.
From Stdlib Require Import Bool String Ascii DecimalString.
From Stdlib Require Import List ZArith QArith Qround Qabs Qminmax Lqa Lia.
Import ListNotations.

Local Open Scope Q_scope.

(** ** Numbers *)

Module JsNum.

(** The source's [a > b] on finite numbers. *)
Definition gtb (a b : Q) : bool := negb (Qle_bool a b).

(** A quotient that may have left the finite numbers. *)
Inductive jsnum : Type :=
| Fin (q : Q)
| PInf
| NInf
| NaN.

(** [a / b] of two finite numbers: [x / 0] is [Infinity] with the sign
    of [x], and [0 / 0] is [NaN]. *)
Definition div (a b : Q) : jsnum :=
  if Qeq_bool b 0 then
    if Qeq_bool a 0 then NaN
    else if gtb a 0 then PInf else NInf
  else Fin (a / b).

(** [x * y]: an infinity times zero is [NaN], otherwise the signs
    multiply. *)
Definition mul (x y : jsnum) : jsnum :=
  let inf_times (positive : bool) (q : Q) :=
    if Qeq_bool q 0 then NaN
    else if Bool.eqb positive (gtb q 0) then PInf else NInf in
  match x, y with
  | NaN, _ | _, NaN => NaN
  | Fin a, Fin b => Fin (a * b)
  | PInf, Fin q | Fin q, PInf => inf_times true q
  | NInf, Fin q | Fin q, NInf => inf_times false q
  | PInf, PInf | NInf, NInf => PInf
  | PInf, NInf | NInf, PInf => NInf
  end.

(** [Math.abs]. *)
Definition abs (x : jsnum) : jsnum :=
  match x with
  | Fin q => Fin (Qabs q)
  | PInf | NInf => PInf
  | NaN => NaN
  end.

(** [Math.round]: the nearest integer, a tie going up. *)
Definition round (x : jsnum) : jsnum :=
  match x with
  | Fin q => Fin (inject_Z (Qfloor (q + (1 # 2))))
  | other => other
  end.

(** [x > y]; every comparison with [NaN] is false. *)
Definition gt (x y : jsnum) : bool :=
  match x, y with
  | NaN, _ | _, NaN => false
  | Fin a, Fin b => gtb a b
  | PInf, (Fin _ | NInf) => true
  | Fin _, NInf => true
  | _, _ => false
  end.

(** [arr[x]]: an element when [x] is a non-negative integer below the
    length, [undefined] ([None]) otherwise. *)
Definition index {A : Type} (arr : list A) (x : jsnum) : option A :=
  match x with
  | Fin q =>
      let r := Qred q in
      if (Zpos (Qden r) =? 1)%Z && (0 <=? Qnum r)%Z
      then nth_error arr (Z.to_nat (Qnum r))
      else None
  | _ => None
  end.

End JsNum.

Import JsNum.

(** ** Data model ([src/types/index.ts]) *)

(** [google.maps.LatLng], read through [lat()] and [lng()]. *)
Record LatLng : Type := mkLatLng { lat : Q; lng : Q }.

Record RoutePoint : Type := mkRoutePoint {
  rp_lat : Q;
  rp_lng : Q;
  elevation : Q;
  distance : Q
}.

Record RouteStats : Type := mkRouteStats {
  totalDistance : Q;
  totalElevationGain : Q;
  totalElevationLoss : Q;
  maxElevation : Q;
  minElevation : Q;
  maxGrade : Q;
  minGrade : Q;
  averageGrade : Q;
  estimatedTime : Q
}.

(** ** Path Sampler *)

Section Sampler.

Context {A : Type}.

(** The body of [for (let i = 0; i < sampleCount; i++)]: [todo]
    iterations remain, starting at index [i].  Exact reading: the
    product [i * interval] is not rounded ([sampleLoopDouble] is the
    loop in doubles). *)
Fixpoint sampleLoop (path : list A) (interval : jsnum) (i todo : nat)
  : list (option A) :=
  match todo with
  | O => []
  | S todo' =>
      let idx := round (mul (Fin (inject_Z (Z.of_nat i))) interval) in
      index path idx :: sampleLoop path interval (S i) todo'
  end.

(** [sampleRoutePoints(path, sampleCount)] in the exact reading.  An
    entry of the result is [Some c] for a coordinate and [None] for
    [undefined]. *)
Definition sampleRoutePoints (path : list A) (sampleCount : nat)
  : list (option A) :=
  if (length path <=? sampleCount)%nat then map Some path
  else
    let interval :=
      div (inject_Z (Z.of_nat (length path) - 1))
          (inject_Z (Z.of_nat sampleCount - 1)) in
    sampleLoop path interval 0 sampleCount.

(** The index the specification names for output position [i]:
    [round(i * (L - 1) / (N - 1))]. *)
Definition nearestIndex (L N i : nat) : nat :=
  Z.to_nat
    (Qfloor (inject_Z (Z.of_nat i) * inject_Z (Z.of_nat L - 1)
               / inject_Z (Z.of_nat N - 1) + (1 # 2))).

End Sampler.


(** ** Elevation batch call *)

(** [google.maps.ElevationResult]. *)
Record ElevationResult : Type := mkElevationResult {
  location : LatLng;
  res_elevation : Q
}.

(** What the provider hands to the callback of
    [getElevationForLocations]: [results] (possibly [null]) and
    [status]. *)
Definition ElevationResponse : Type :=
  (option (list ElevationResult) * string)%type.

(** The state of the promise [getElevationData] returns.  [Pending]:
    the provider never called back. *)
Inductive Promise (T : Type) : Type :=
| Resolved (value : T)
| Rejected (message : string)
| Pending.
Arguments Resolved {T} value.
Arguments Rejected {T} message.
Arguments Pending {T}.

(** The provider is a script of the responses it will give, one per
    request; a computation against it returns its result and the
    responses still unused. *)
Definition Provider (T : Type) : Type :=
  list ElevationResponse -> T * list ElevationResponse.

(** [getElevationData(locations)]: one request; resolve on ['OK'] with
    non-null results, reject with the status otherwise. *)
Definition getElevationData (locations : list LatLng)
  : Provider (Promise (list ElevationResult)) :=
  fun script =>
    match script with
    | [] => (Pending, [])
    | (results, status) :: later =>
        let failed :=
          Rejected ("Elevation request failed: " ++ status)%string in
        (if (status =? "OK")%string
         then match results with
              | Some rs => Resolved rs
              | None => failed
              end
         else failed,
         later)
    end.

(** ** Elevation Enricher *)

Section Enricher.

(** [google.maps.geometry.spherical.computeDistanceBetween], a
    function of the maps library. *)
Variable computeDistanceBetween : LatLng -> LatLng -> Q.

(** The [forEach] of [createRoutePoints]: [prevPoint] is
    [elevationData[index - 1]], absent at [index = 0]; [total] is
    [totalDistance] before this element. *)
Fixpoint createLoop (prevPoint : option ElevationResult) (total : Q)
                    (rest : list ElevationResult) : list RoutePoint :=
  match rest with
  | [] => []
  | result :: rest' =>
      let total' :=
        match prevPoint with
        | Some prev =>
            total
            + computeDistanceBetween (location prev) (location result)
        | None => total
        end in
      mkRoutePoint (lat (location result)) (lng (location result))
                   (res_elevation result) total'
      :: createLoop (Some result) total' rest'
  end.

(** [createRoutePoints(elevationData, fullPath)]; the source never
    reads [fullPath]. *)
Definition createRoutePoints (elevationData : list ElevationResult)
                             (fullPath : list LatLng) : list RoutePoint :=
  createLoop None 0 elevationData.

(** The segment lengths of a coordinate sequence, in order. *)
Fixpoint segmentLengths (locs : list LatLng) : list Q :=
  match locs with
  | a :: (b :: _) as rest => computeDistanceBetween a b :: segmentLengths rest
  | _ => []
  end.

End Enricher.

Definition Qsum (l : list Q) : Q := fold_right Qplus 0 l.

(** ** Statistics Aggregator *)

(** The local variables of the loop of [calculateRouteStats]. *)
Record StatsAcc : Type := mkStatsAcc {
  acc_elevationGain : Q;
  acc_elevationLoss : Q;
  acc_maxElevation : Q;
  acc_minElevation : Q;
  acc_maxGrade : Q;
  acc_minGrade : Q;
  acc_totalGrade : Q;
  acc_gradeCount : nat
}.

(** One iteration of [for (let i = 1; i < points.length; i++)], in the
    exact reading ([statsStepD] is the iteration in doubles). *)
Definition statsStep (previous current : RoutePoint) (acc : StatsAcc)
  : StatsAcc :=
  let maxElevation := Qmax (acc_maxElevation acc) (elevation current) in
  let minElevation := Qmin (acc_minElevation acc) (elevation current) in
  let elevationChange := elevation current - elevation previous in
  let elevationGain :=
    if gtb elevationChange 0
    then acc_elevationGain acc + elevationChange
    else acc_elevationGain acc in
  let elevationLoss :=
    if gtb elevationChange 0
    then acc_elevationLoss acc
    else acc_elevationLoss acc + Qabs elevationChange in
  let distanceChange := distance current - distance previous in
  if gtb distanceChange 0 then
    let grade := elevationChange / distanceChange * 100 in
    mkStatsAcc elevationGain elevationLoss maxElevation minElevation
               (Qmax (acc_maxGrade acc) grade)
               (Qmin (acc_minGrade acc) grade)
               (acc_totalGrade acc + Qabs grade)
               (S (acc_gradeCount acc))
  else
    mkStatsAcc elevationGain elevationLoss maxElevation minElevation
               (acc_maxGrade acc) (acc_minGrade acc)
               (acc_totalGrade acc) (acc_gradeCount acc).

(** The loop from [points[i] = hd rest], with [previous = points[i-1]]. *)
Fixpoint statsLoop (previous : RoutePoint) (rest : list RoutePoint)
                   (acc : StatsAcc) : StatsAcc :=
  match rest with
  | [] => acc
  | current :: rest' => statsLoop current rest' (statsStep previous current acc)
  end.

Definition zeroStats : RouteStats := mkRouteStats 0 0 0 0 0 0 0 0 0.

(** [calculateRouteStats(points)]. *)
Definition calculateRouteStats (points : list RoutePoint) : RouteStats :=
  match points with
  | [] => zeroStats
  | first :: rest =>
      let acc :=
        statsLoop first rest
          (mkStatsAcc 0 0 (elevation first) (elevation first) 0 0 0 0) in
      let totalDistance := distance (last points first) in
      let averageGrade :=
        if (0 <? acc_gradeCount acc)%nat
        then acc_totalGrade acc / inject_Z (Z.of_nat (acc_gradeCount acc))
        else 0 in
      let baseTime := totalDistance / 1000 * 15 in
      let elevationTime := acc_elevationGain acc / 100 * 10 in
      let estimatedTime := baseTime + elevationTime in
      mkRouteStats totalDistance (acc_elevationGain acc)
                   (acc_elevationLoss acc) (acc_maxElevation acc)
                   (acc_minElevation acc) (acc_maxGrade acc)
                   (acc_minGrade acc) averageGrade estimatedTime
  end.

(** ** Difficulty Classifier *)

Inductive Difficulty : Type := easy | moderate | hard | extreme.

(** The order [easy < moderate < hard < extreme]. *)
Definition tier (d : Difficulty) : nat :=
  match d with easy => 0 | moderate => 1 | hard => 2 | extreme => 3 end.

(** One of the three [if / else if / else if] ladders: 3, 2, 1 or 0
    points for a value above [t3], [t2], [t1]. *)
Definition factor (x t3 t2 t1 : Q) : Z :=
  if gtb x t3 then 3
  else if gtb x t2 then 2
  else if gtb x t1 then 1
  else 0.

Definition difficultyScore (stats : RouteStats) : Z :=
  let distance := totalDistance stats / 1000 in
  let elevationGain := totalElevationGain stats in
  let maxGrade := Qabs (maxGrade stats) in
  (factor distance 20 10 5
   + factor elevationGain 1000 500 200
   + factor maxGrade 20 15 10)%Z.

(** [calculateDifficulty(stats)]. *)
Definition calculateDifficulty (stats : RouteStats) : Difficulty :=
  let score := difficultyScore stats in
  if (7 <=? score)%Z then extreme
  else if (5 <=? score)%Z then hard
  else if (3 <=? score)%Z then moderate
  else easy.

(** ** Alert derivers *)

(** [getSafetyScore()] of [SafetyAlerts.tsx], over [routeData.stats]. *)
Definition getSafetyScore (stats : RouteStats) : Z :=
  let score := 100%Z in
  let score :=
    if gtb (maxGrade stats) 20 then (score - 20)%Z
    else if gtb (maxGrade stats) 15 then (score - 15)%Z
    else if gtb (maxGrade stats) 10 then (score - 10)%Z
    else score in
  let score :=
    if gtb (totalElevationGain stats) 1000 then (score - 15)%Z
    else if gtb (totalElevationGain stats) 500 then (score - 10)%Z
    else score in
  let score :=
    if gtb (totalDistance stats) 20000 then (score - 10)%Z
    else if gtb (totalDistance stats) 10000 then (score - 5)%Z
    else score in
  Z.max score 0.

(** The grade [getTrafficInfo] computes for the segment from
    [prevPoint] to [point]; the division has no guard. *)
Definition trafficGrade (prevPoint point : RoutePoint) : jsnum :=
  let elevationChange := elevation point - elevation prevPoint in
  let distance := distance point - distance prevPoint in
  abs (mul (div elevationChange distance) (Fin 100)).

(** The predicate of [routePoints.filter] at an index above 0. *)
Definition isSteep (prevPoint point : RoutePoint) : bool :=
  gt (trafficGrade prevPoint point) (Fin 15).

Fixpoint steepFrom (prevPoint : RoutePoint) (rest : list RoutePoint)
  : list RoutePoint :=
  match rest with
  | [] => []
  | point :: rest' =>
      if isSteep prevPoint point
      then point :: steepFrom point rest'
      else steepFrom point rest'
  end.

(** [steepSections]: index 0 is never kept. *)
Definition steepSections (routePoints : list RoutePoint) : list RoutePoint :=
  match routePoints with
  | [] => []
  | first :: rest => steepFrom first rest
  end.

Definition heavyTrafficAlert : string :=
  "Heavy traffic expected during peak hours".
Definition steepSectionsAlert : string :=
  "Multiple steep sections - allow extra time".

(** [getTrafficInfo(routePoints)]. *)
Definition getTrafficInfo (routePoints : list RoutePoint) : list string :=
  let alerts :=
    if (50 <? length routePoints)%nat then [heavyTrafficAlert] else [] in
  if (5 <? length (steepSections routePoints))%nat
  then alerts ++ [steepSectionsAlert]
  else alerts.

(** ** Double arithmetic *)

(** Where a property depends on how IEEE doubles round, the function is
    embedded a second time over the primitive binary64 numbers, with
    the operations of the source mapped to the hardware operations. *)
Module Double.

Definition float : Set := PrimFloat.float.

(** The double of an integer; exact below [2^53], which covers every
    array length and loop counter. *)
Definition ofZ (z : Z) : float :=
  if (z <? 0)%Z
  then PrimFloat.opp (PrimFloat.of_uint63 (Uint63Axioms.of_Z (- z)))
  else PrimFloat.of_uint63 (Uint63Axioms.of_Z z).

Definition ofNat (n : nat) : float := ofZ (Z.of_nat n).

(** The double a decimal literal [n / d] denotes: the one nearest to
    the quotient. *)
Definition literal (n d : Z) : float := PrimFloat.div (ofZ n) (ofZ d).

(** The number a double stands for. *)
Definition value (f : float) : jsnum :=
  match FloatOps.Prim2SF f with
  | SpecFloat.S754_zero _ => Fin 0
  | SpecFloat.S754_infinity negative => if negative then NInf else PInf
  | SpecFloat.S754_nan => NaN
  | SpecFloat.S754_finite negative m e =>
      let magnitude :=
        match e with
        | Z0 => inject_Z (Zpos m)
        | Zpos k => inject_Z (Zpos m * 2 ^ Zpos k)
        | Zneg k => Zpos m # 2 ^ k
        end in
      Fin (if negative then - magnitude else magnitude)
  end.

Definition finite (f : float) : bool :=
  match value f with Fin _ => true | _ => false end.

(** The rational a finite double stands for (0 for the others). *)
Definition rational (f : float) : Q :=
  match value f with Fin q => q | _ => 0 end.

(** [a > b]. *)
Definition gt (a b : float) : bool := PrimFloat.ltb b a.

(** [Math.max(a, b)] and [Math.min(a, b)]: [NaN] if either is, and
    [+0] above [-0]. *)
Definition max (a b : float) : float :=
  if PrimFloat.is_nan a || PrimFloat.is_nan b then PrimFloat.nan
  else if PrimFloat.ltb a b then b
  else if PrimFloat.ltb b a then a
  else if PrimFloat.get_sign a then b else a.

Definition min (a b : float) : float :=
  if PrimFloat.is_nan a || PrimFloat.is_nan b then PrimFloat.nan
  else if PrimFloat.ltb a b then a
  else if PrimFloat.ltb b a then b
  else if PrimFloat.get_sign a then a else b.

End Double.

(** [sampleRoutePoints] in double arithmetic. *)
Section SamplerDouble.

Context {A : Type}.


(** The [interval] of the source for a path of [L] coordinates and a
    sample count [N]. *)
Definition intervalDouble (L N : nat) : Double.float :=
  PrimFloat.div (PrimFloat.sub (Double.ofNat L) PrimFloat.one)
                (PrimFloat.sub (Double.ofNat N) PrimFloat.one).


End SamplerDouble.

(** The exact position [i * (L - 1) / (N - 1)]. *)
Definition exactPosition (L N i : nat) : Q :=
  inject_Z (Z.of_nat i) * inject_Z (Z.of_nat L - 1)
  / inject_Z (Z.of_nat N - 1).

(** The double product [i * interval] is finite and less than
    [1 / (2 (N - 1))] away from the exact position.  The division and
    the multiplication each round once; the condition bounds what the
    two roundings may add up to, and is decided by computation for
    given [L], [N] and [i]. *)
Definition productAccurate (L N i : nat) : Prop :=
  exists p,
    Double.value (PrimFloat.mul (Double.ofNat i) (intervalDouble L N)) = Fin p
    /\ Qabs (p - exactPosition L N i)
       < 1 / (2 * inject_Z (Z.of_nat N - 1)).

(** The condition as a test, and the test run over every path of up to
    [longest] coordinates, every sample target from 2 that is below
    its length, and every turn of the loop. *)
Definition productAccurateb (L N i : nat) : bool :=
  match Double.value
          (PrimFloat.mul (Double.ofNat i) (intervalDouble L N)) with
  | Fin p =>
      negb (Qle_bool (1 / (2 * inject_Z (Z.of_nat N - 1)))
                     (Qabs (p - exactPosition L N i)))
  | _ => false
  end.

Definition accurateUpTo (longest : nat) : bool :=
  forallb (fun L =>
    forallb (fun N =>
      forallb (fun i => productAccurateb L N i) (seq 0 N))
      (seq 2 (L - 2)))
    (seq 3 (longest - 2)).


(** [calculateRouteStats] in double arithmetic. *)
Record RoutePointD : Type := mkRoutePointD {
  d_lat : Double.float;
  d_lng : Double.float;
  d_elevation : Double.float;
  d_distance : Double.float
}.

Record RouteStatsD : Type := mkRouteStatsD {
  d_totalDistance : Double.float;
  d_totalElevationGain : Double.float;
  d_totalElevationLoss : Double.float;
  d_maxElevation : Double.float;
  d_minElevation : Double.float;
  d_maxGrade : Double.float;
  d_minGrade : Double.float;
  d_averageGrade : Double.float;
  d_estimatedTime : Double.float
}.

Record StatsAccD : Type := mkStatsAccD {
  accd_elevationGain : Double.float;
  accd_elevationLoss : Double.float;
  accd_maxElevation : Double.float;
  accd_minElevation : Double.float;
  accd_maxGrade : Double.float;
  accd_minGrade : Double.float;
  accd_totalGrade : Double.float;
  accd_gradeCount : nat
}.

Definition statsStepD (previous current : RoutePointD) (acc : StatsAccD)
  : StatsAccD :=
  let maxElevation :=
    Double.max (accd_maxElevation acc) (d_elevation current) in
  let minElevation :=
    Double.min (accd_minElevation acc) (d_elevation current) in
  let elevationChange :=
    PrimFloat.sub (d_elevation current) (d_elevation previous) in
  let elevationGain :=
    if Double.gt elevationChange PrimFloat.zero
    then PrimFloat.add (accd_elevationGain acc) elevationChange
    else accd_elevationGain acc in
  let elevationLoss :=
    if Double.gt elevationChange PrimFloat.zero
    then accd_elevationLoss acc
    else PrimFloat.add (accd_elevationLoss acc)
                       (PrimFloat.abs elevationChange) in
  let distanceChange :=
    PrimFloat.sub (d_distance current) (d_distance previous) in
  if Double.gt distanceChange PrimFloat.zero then
    let grade :=
      PrimFloat.mul (PrimFloat.div elevationChange distanceChange)
                    (Double.ofZ 100) in
    mkStatsAccD elevationGain elevationLoss maxElevation minElevation
                (Double.max (accd_maxGrade acc) grade)
                (Double.min (accd_minGrade acc) grade)
                (PrimFloat.add (accd_totalGrade acc) (PrimFloat.abs grade))
                (S (accd_gradeCount acc))
  else
    mkStatsAccD elevationGain elevationLoss maxElevation minElevation
                (accd_maxGrade acc) (accd_minGrade acc)
                (accd_totalGrade acc) (accd_gradeCount acc).

Fixpoint statsLoopD (previous : RoutePointD) (rest : list RoutePointD)
                    (acc : StatsAccD) : StatsAccD :=
  match rest with
  | [] => acc
  | current :: rest' =>
      statsLoopD current rest' (statsStepD previous current acc)
  end.

Definition initialAccD (first : RoutePointD) : StatsAccD :=
  mkStatsAccD PrimFloat.zero PrimFloat.zero
              (d_elevation first) (d_elevation first)
              PrimFloat.zero PrimFloat.zero PrimFloat.zero 0.

Definition calculateRouteStatsD (points : list RoutePointD) : RouteStatsD :=
  match points with
  | [] =>
      mkRouteStatsD PrimFloat.zero PrimFloat.zero PrimFloat.zero
                    PrimFloat.zero PrimFloat.zero PrimFloat.zero
                    PrimFloat.zero PrimFloat.zero PrimFloat.zero
  | first :: rest =>
      let acc := statsLoopD first rest (initialAccD first) in
      let totalDistance := d_distance (last points first) in
      let averageGrade :=
        if (0 <? accd_gradeCount acc)%nat
        then PrimFloat.div (accd_totalGrade acc)
                           (Double.ofNat (accd_gradeCount acc))
        else PrimFloat.zero in
      let baseTime :=
        PrimFloat.mul (PrimFloat.div totalDistance (Double.ofZ 1000))
                      (Double.ofZ 15) in
      let elevationTime :=
        PrimFloat.mul (PrimFloat.div (accd_elevationGain acc)
                                     (Double.ofZ 100))
                      (Double.ofZ 10) in
      let estimatedTime := PrimFloat.add baseTime elevationTime in
      mkRouteStatsD totalDistance (accd_elevationGain acc)
                    (accd_elevationLoss acc) (accd_maxElevation acc)
                    (accd_minElevation acc) (accd_maxGrade acc)
                    (accd_minGrade acc) averageGrade estimatedTime
  end.

(** [gain - loss] as a number, for finite gain and loss. *)
Definition balanceD (acc : StatsAccD) : Q :=
  Double.rational (accd_elevationGain acc)
  - Double.rational (accd_elevationLoss acc).

(** The double [f] is finite and stands for the number [q]. *)
Definition exactly (f : Double.float) (q : Q) : Prop :=
  exists p, Double.value f = Fin p /\ p == q.

(** The double sum [a + b] and the double difference [a - b] are the
    sum and the difference of the numbers: the operation did not round
    or overflow. *)
Definition exactSum (a b : Double.float) : Prop :=
  exactly (PrimFloat.add a b) (Double.rational a + Double.rational b).

Definition exactDifference (a b : Double.float) : Prop :=
  exactly (PrimFloat.sub a b) (Double.rational a - Double.rational b).

(** An iteration whose elevation arithmetic does not round: neither
    the subtraction that gives [elevationChange] nor the one [+=] the
    iteration performs. *)
Definition iterationExact (previous current : RoutePointD) (acc : StatsAccD)
  : Prop :=
  let elevationChange :=
    PrimFloat.sub (d_elevation current) (d_elevation previous) in
  exactDifference (d_elevation current) (d_elevation previous)
  /\ if Double.gt elevationChange PrimFloat.zero
     then exactSum (accd_elevationGain acc) elevationChange
     else exactSum (accd_elevationLoss acc) (PrimFloat.abs elevationChange).

(** No iteration of the loop rounds. *)
Fixpoint loopExact (previous : RoutePointD) (rest : list RoutePointD)
                   (acc : StatsAccD) : Prop :=
  match rest with
  | [] => True
  | current :: rest' =>
      iterationExact previous current acc
      /\ loopExact current rest' (statsStepD previous current acc)
  end.

(** A point at the origin with the elevation [n / d] and the distance
    [m] metres. *)
Definition pointD (n d m : Z) : RoutePointD :=
  mkRoutePointD PrimFloat.zero PrimFloat.zero
                (Double.literal n d) (Double.ofZ m).

(** ** Properties stated over the segments of a point sequence *)

(** [P] holds of every consecutive pair [points[i], points[i+1]]. *)
Definition everySegment (P : RoutePoint -> RoutePoint -> Prop)
                        (points : list RoutePoint) : Prop :=
  forall i previous current,
    nth_error points i = Some previous ->
    nth_error points (S i) = Some current ->
    P previous current.

(** The same, along the loop: [previous] is the point before [rest]. *)
Fixpoint segmentsFrom (P : RoutePoint -> RoutePoint -> Prop)
                      (previous : RoutePoint) (rest : list RoutePoint)
  : Prop :=
  match rest with
  | [] => True
  | current :: rest' => P previous current /\ segmentsFrom P current rest'
  end.

(** The [distanceChange] of the segment is zero. *)
Definition stationary (previous current : RoutePoint) : Prop :=
  distance current - distance previous == 0.

(** The segment does not rise; a strict descent is a special case. *)
Definition descends (previous current : RoutePoint) : Prop :=
  elevation current <= elevation previous.

(** The segment does not fall; a strict climb is a special case. *)
Definition climbs (previous current : RoutePoint) : Prop :=
  elevation previous <= elevation current.

(** ** Hiking classifier and terrain tags *)

Inductive HikingDifficulty : Type :=
  beginner | intermediate | advanced | expert.

Definition hikingTier (d : HikingDifficulty) : nat :=
  match d with
  | beginner => 0 | intermediate => 1 | advanced => 2 | expert => 3
  end.

(** [calculateHikingDifficulty(routePoints)]: the first rung that one
    of the three quantities exceeds. *)
Definition calculateHikingDifficulty (routePoints : list RoutePoint)
  : HikingDifficulty :=
  let stats := calculateRouteStats routePoints in
  let distance := totalDistance stats / 1000 in
  let elevationGain := totalElevationGain stats in
  let maxGrade := Qabs (maxGrade stats) in
  if gtb distance 15 || gtb elevationGain 800 || gtb maxGrade 25
  then expert
  else if gtb distance 10 || gtb elevationGain 500 || gtb maxGrade 20
  then advanced
  else if gtb distance 5 || gtb elevationGain 300 || gtb maxGrade 15
  then intermediate
  else beginner.

(** [if (cond) terrain.push(tag)]. *)
Definition pushIf (cond : bool) (tag : string) (terrain : list string)
  : list string :=
  if cond then terrain ++ [tag] else terrain.

(** [analyzeHikingTerrain(routePoints)]. *)
Definition analyzeHikingTerrain (routePoints : list RoutePoint)
  : list string :=
  let terrain := [] in
  let stats := calculateRouteStats routePoints in
  let terrain := pushIf (gtb (maxElevation stats) 2000)
                        "High altitude" terrain in
  let terrain := pushIf (gtb (maxGrade stats) 20) "Steep climbs" terrain in
  let terrain := pushIf (gtb (totalDistance stats) 10000)
                        "Long distance" terrain in
  let terrain := pushIf (gtb (totalElevationGain stats) 500)
                        "Significant elevation gain" terrain in
  if (0 <? length terrain)%nat then terrain else ["Moderate terrain"%string].

(** ** Safety panel ([SafetyAlerts.tsx]) *)

(** [getScoreColor(score)]. *)
Definition getScoreColor (score : Z) : string :=
  if (80 <=? score)%Z then "text-green-600 bg-green-100"
  else if (60 <=? score)%Z then "text-yellow-600 bg-yellow-100"
  else if (40 <=? score)%Z then "text-orange-600 bg-orange-100"
  else "text-red-600 bg-red-100".

(** The icon components [getScoreIcon] chooses from. *)
Inductive ScoreIcon : Type := ShieldIcon | InfoIcon | AlertTriangleIcon.

(** [getScoreIcon(score)]. *)
Definition getScoreIcon (score : Z) : ScoreIcon :=
  if (80 <=? score)%Z then ShieldIcon
  else if (60 <=? score)%Z then InfoIcon
  else AlertTriangleIcon.

(** The [terrainAlerts] that [fetchAlerts] derives from the
    statistics. *)
Definition terrainAlerts (stats : RouteStats) : list string :=
  let alerts := [] in
  let alerts :=
    if gtb (maxGrade stats) 20
    then alerts ++ ["Extremely steep sections detected - use caution"%string]
    else if gtb (maxGrade stats) 15
    then alerts
         ++ ["Very steep sections ahead - prepare for challenging terrain"%string]
    else alerts in
  let alerts :=
    pushIf (gtb (totalElevationGain stats) 1000)
           "High elevation gain - ensure adequate fitness level" alerts in
  pushIf (gtb (totalDistance stats) 20000)
         "Long distance route - plan for rest stops and supplies" alerts.

(** What the loop keeps true of its four grade variables. *)
Definition gradeInvariant (acc : StatsAcc) : Prop :=
  0 <= acc_maxGrade acc
  /\ acc_minGrade acc <= 0
  /\ 0 <= acc_totalGrade acc
  /\ acc_totalGrade acc
     <= Qmax (acc_maxGrade acc) (- acc_minGrade acc)
        * inject_Z (Z.of_nat (acc_gradeCount acc)).

(** The three fields the enricher copies. *)
Definition copiedOf (result : ElevationResult) : Q * Q * Q :=
  (lat (location result), lng (location result), res_elevation result).

Definition copiedIn (point : RoutePoint) : Q * Q * Q :=
  (rp_lat point, rp_lng point, elevation point).

(** ** Provider calls of the whole service *)

(** [LocationData] and [TravelMode] of [types/index.ts]. *)
Record LocationData : Type := mkLocationData {
  address : string;
  loc_lat : Q;
  loc_lng : Q
}.

Inductive TravelMode : Type := WALKING | BICYCLING | DRIVING.

(** The part of [google.maps.DirectionsResult] the service reads. *)
Record DirectionsRoute : Type := mkDirectionsRoute {
  overview_path : list LatLng
}.

Record DirectionsResult : Type := mkDirectionsResult {
  routes : list DirectionsRoute
}.

Definition DirectionsResponse : Type :=
  (option DirectionsResult * string)%type.

(** The part of [google.maps.places.PlaceResult] the service reads;
    [rating] and [photos] are optional fields. *)
Record PlaceResult : Type := mkPlaceResult {
  place_name : string;
  rating : option Q;
  photos : option (list string)
}.

Definition PlacesResponse : Type :=
  (option (list PlaceResult) * string)%type.

(** [RouteData]; the service always sets [polyline] to [null]. *)
Record RouteData : Type := mkRouteData {
  points : list RoutePoint;
  stats : RouteStats;
  waypoints : option (list LocationData)
}.

(** What a call of the service runs against: whether [setMap] has
    created the places service, and for each provider the responses it
    will give, one per request, in the order the requests are made. *)
Record World : Type := mkWorld {
  placesService : bool;
  directionsScript : list DirectionsResponse;
  elevationScript : list ElevationResponse;
  placesScript : list PlacesResponse
}.

(** An [async] computation: the state of its promise and the world it
    leaves. *)
Definition Async (T : Type) : Type := World -> Promise T * World.

Definition resolve {T : Type} (value : T) : Async T :=
  fun w => (Resolved value, w).

(** [throw new Error(message)]. *)
Definition throw {T : Type} (message : string) : Async T :=
  fun w => (Rejected message, w).

(** [const x = await m; k x]: a rejection propagates, and nothing after
    an [await] that never settles runs. *)
Definition await {T U : Type} (m : Async T) (k : T -> Async U) : Async U :=
  fun w =>
    match m w with
    | (Resolved x, w') => k x w'
    | (Rejected message, w') => (Rejected message, w')
    | (Pending, w') => (Pending, w')
    end.

(** [try { m } catch (error) { handler }]. *)
Definition tryCatch {T : Type} (m : Async T) (handler : string -> Async T)
  : Async T :=
  fun w =>
    match m w with
    | (Rejected message, w') => handler message w'
    | settled => settled
    end.

Notation "x <- m ;; k" := (await m (fun x => k))
  (at level 61, m at next level, right associativity).

(** The message of the [TypeError] raised by reading a property of
    [undefined]; the service never lets it reach a caller unchanged. *)
Definition typeErrorMessage : string :=
  "Cannot read properties of undefined".

(** The callback all three directions requests share. *)
Definition settleDirections (failure : string) : Async DirectionsResult :=
  fun w =>
    match directionsScript w with
    | [] => (Pending, w)
    | (result, status) :: later =>
        let failed := Rejected (failure ++ status)%string in
        (if (status =? "OK")%string
         then match result with
              | Some r => Resolved r
              | None => failed
              end
         else failed,
         mkWorld (placesService w) later (elevationScript w) (placesScript w))
    end.

(** [getDirections(start, end, travelMode, waypoints)]. *)
Definition getDirections (start finish : LocationData)
  (travelMode : TravelMode) (stops : option (list LocationData))
  : Async DirectionsResult :=
  settleDirections "Directions request failed: ".

(** [getDirectionsWithAlternatives(start, end, travelMode)]. *)
Definition getDirectionsWithAlternatives (start finish : LocationData)
  (travelMode : TravelMode) : Async DirectionsResult :=
  settleDirections "Directions request failed: ".

(** [getDirectionsWithAccessibility(start, end, accessibilityNeeds)]. *)
Definition getDirectionsWithAccessibility (start finish : LocationData)
  (accessibilityNeeds : list string) : Async DirectionsResult :=
  settleDirections "Accessible directions request failed: ".

(** The array handed to the elevation provider.  The provider answers
    from its script whatever it is asked, so an [undefined] sample
    (which needs a sample count of 1) is left out of the request. *)
Definition requestedLocations (samples : list (option LatLng))
  : list LatLng :=
  flat_map (fun sample => match sample with
                          | Some c => [c]
                          | None => []
                          end) samples.

(** [await this.getElevationData(locations)]. *)
Definition awaitElevationData (locations : list LatLng)
  : Async (list ElevationResult) :=
  fun w =>
    let (promise, later) := getElevationData locations (elevationScript w) in
    (promise,
     mkWorld (placesService w) (directionsScript w) later (placesScript w)).

(** [findNearbyPlaces(location, type, radius)]. *)
Definition findNearbyPlaces (location : LatLng) (type : string) (radius : Q)
  : Async (list PlaceResult) :=
  fun w =>
    if negb (placesService w)
    then (Rejected "Places service not initialized", w)
    else
      match placesScript w with
      | [] => (Pending, w)
      | (results, status) :: later =>
          let failed :=
            Rejected ("Places search failed: " ++ status)%string in
          (if (status =? "OK")%string
           then match results with
                | Some rs => Resolved rs
                | None => failed
                end
           else failed,
           mkWorld (placesService w) (directionsScript w)
                   (elevationScript w) later)
      end.

Section Service.

(** [ELEVATION_SAMPLE_POINTS] of [config/maps]. *)
Variable ELEVATION_SAMPLE_POINTS : nat.

Variable computeDistanceBetween : LatLng -> LatLng -> Q.

(** The four statements that [calculateRoute], [getRouteAlternatives]
    and [getAccessibleRoutes] each run on a route: sample, fetch the
    elevations, build the points, aggregate. *)
Definition analyseRoute (route : DirectionsRoute)
  (stops : option (list LocationData)) : Async RouteData :=
  let pathPoints :=
    sampleRoutePoints (overview_path route) ELEVATION_SAMPLE_POINTS in
  elevationData <- awaitElevationData (requestedLocations pathPoints) ;;
  let routePoints :=
    createRoutePoints computeDistanceBetween elevationData
                      (overview_path route) in
  let stats := calculateRouteStats routePoints in
  resolve (mkRouteData routePoints stats stops).

Definition calculateRouteFailure : string :=
  "Failed to calculate route. Please try again.".

(** [calculateRoute(start, end, travelMode, waypoints)]. *)
Definition calculateRoute (start finish : LocationData)
  (travelMode : TravelMode) (stops : option (list LocationData))
  : Async RouteData :=
  tryCatch
    (directionsResult <- getDirections start finish travelMode stops ;;
     match routes directionsResult with
     | route :: _ => analyseRoute route stops
     | [] => throw typeErrorMessage
     end)
    (fun error => throw calculateRouteFailure).

(** The body of a [for] loop over routes that pushes one [RouteData]
    per route. *)
Fixpoint analyseRoutes (todo : list DirectionsRoute)
  (alternatives : list RouteData) : Async (list RouteData) :=
  match todo with
  | [] => resolve alternatives
  | route :: todo' =>
      routeData <- analyseRoute route None ;;
      analyseRoutes todo' (alternatives ++ [routeData])
  end.

(** [getRouteAlternatives(start, end, travelMode)]: the loop runs over
    indices below [Math.min(routes.length, 3)]. *)
Definition getRouteAlternatives (start finish : LocationData)
  (travelMode : TravelMode) : Async (list RouteData) :=
  tryCatch
    (directionsResult <-
       getDirectionsWithAlternatives start finish travelMode ;;
     analyseRoutes (firstn 3 (routes directionsResult)) [])
    (fun error => resolve []).

(** [getAccessibleRoutes(start, end, accessibilityNeeds)]. *)
Definition getAccessibleRoutes (start finish : LocationData)
  (accessibilityNeeds : list string) : Async (list RouteData) :=
  tryCatch
    (directionsResult <-
       getDirectionsWithAccessibility start finish accessibilityNeeds ;;
     analyseRoutes (routes directionsResult) [])
    (fun error => resolve []).

End Service.

(** ** Places along the route *)

(** [routePoints.filter((_, index) => index % 10 === 0)], from
    [index]. *)
Fixpoint everyTenthFrom (index : nat) (routePoints : list RoutePoint)
  : list RoutePoint :=
  match routePoints with
  | [] => []
  | point :: rest =>
      if (index mod 10 =? 0)%nat
      then point :: everyTenthFrom (S index) rest
      else everyTenthFrom (S index) rest
  end.

(** [place.rating && place.rating >= 4.0 && place.photos &&
    place.photos.length > 0]. *)
Definition isGoodSpot (place : PlaceResult) : bool :=
  match rating place with
  | Some r => negb (Qeq_bool r 0) && Qle_bool 4 r
  | None => false
  end
  && match photos place with
     | Some ps => (0 <? length ps)%nat
     | None => false
     end.

Definition pointLocation (point : RoutePoint) : LatLng :=
  mkLatLng (rp_lat point) (rp_lng point).

(** The [for ... of] loop of [getPhotoSpots], with its [try / catch]
    around each search. *)
Fixpoint photoLoop (todo : list RoutePoint) (photoSpots : list PlaceResult)
  : Async (list PlaceResult) :=
  match todo with
  | [] => resolve photoSpots
  | point :: todo' =>
      photoSpots' <-
        tryCatch
          (places <- findNearbyPlaces (pointLocation point)
                       "tourist_attraction" 1500 ;;
           let goodSpots := filter isGoodSpot places in
           resolve (photoSpots ++ firstn 2 goodSpots))
          (fun error => resolve photoSpots) ;;
      photoLoop todo' photoSpots'
  end.

(** [getPhotoSpots(routePoints)]. *)
Definition getPhotoSpots (routePoints : list RoutePoint)
  : Async (list PlaceResult) :=
  fun w =>
    if negb (placesService w) || (length routePoints =? 0)%nat
    then resolve [] w
    else
      let samplePoints := everyTenthFrom 0 routePoints in
      (photoSpots <- photoLoop (firstn 5 samplePoints) [] ;;
       resolve (firstn 8 photoSpots)) w.

(** [Promise.all] over calls made one after the other: every call is
    started; the result rejects if one of them rejects, stays pending
    if one never settles, and otherwise resolves with all values. *)
Fixpoint promiseAll {T : Type} (calls : list (Async T)) : Async (list T) :=
  match calls with
  | [] => resolve []
  | call :: calls' =>
      fun w =>
        let (first, w1) := call w in
        let (others, w2) := promiseAll calls' w1 in
        (match first, others with
         | Rejected message, _ => Rejected message
         | _, Rejected message => Rejected message
         | Pending, _ | _, Pending => Pending
         | Resolved x, Resolved xs => Resolved (x :: xs)
         end, w2)
  end.

(** [routePoints[Math.floor(routePoints.length / 2)]]. *)
Definition midPointOf (routePoints : list RoutePoint) : option RoutePoint :=
  nth_error routePoints (length routePoints / 2).

(** The object [getTravelComfortInfo] returns. *)
Record TravelComfortInfo : Type := mkTravelComfortInfo {
  restStops : list PlaceResult;
  fuelStations : list PlaceResult;
  restaurants : list PlaceResult;
  hotels : list PlaceResult;
  medicalFacilities : list PlaceResult
}.

(** [getTravelComfortInfo(routePoints)]; [None] is [null]. *)
Definition getTravelComfortInfo (routePoints : list RoutePoint)
  : Async (option TravelComfortInfo) :=
  if (length routePoints =? 0)%nat then resolve None
  else
    match midPointOf routePoints with
    | None => throw typeErrorMessage
    | Some midPoint =>
        let location := pointLocation midPoint in
        tryCatch
          (found <- promiseAll
                      [findNearbyPlaces location "rest_stop" 10000;
                       findNearbyPlaces location "gas_station" 15000;
                       findNearbyPlaces location "restaurant" 5000;
                       findNearbyPlaces location "lodging" 20000;
                       findNearbyPlaces location "hospital" 25000] ;;
           match found with
           | [rest; fuel; food; lodging; medical] =>
               resolve (Some (mkTravelComfortInfo
                                (firstn 3 rest) (firstn 5 fuel)
                                (firstn 8 food) (firstn 4 lodging)
                                (firstn 2 medical)))
           | _ => throw typeErrorMessage
           end)
          (fun error => resolve None)
    end.

(** The object [getHikingTrailInfo] returns. *)
Record HikingTrailInfo : Type := mkHikingTrailInfo {
  trailheads : list PlaceResult;
  waterSources : list PlaceResult;
  trail_difficulty : HikingDifficulty;
  terrainAnalysis : list string
}.

(** [getHikingTrailInfo(routePoints)]; [None] is [null]. *)
Definition getHikingTrailInfo (routePoints : list RoutePoint)
  : Async (option HikingTrailInfo) :=
  if (length routePoints =? 0)%nat then resolve None
  else
    match midPointOf routePoints with
    | None => throw typeErrorMessage
    | Some midPoint =>
        let location := pointLocation midPoint in
        tryCatch
          (parks <- findNearbyPlaces location "park" 5000 ;;
           water <- findNearbyPlaces location "natural_feature" 2000 ;;
           resolve (Some (mkHikingTrailInfo
                            (firstn 3 parks) (firstn 5 water)
                            (calculateHikingDifficulty routePoints)
                            (analyzeHikingTerrain routePoints))))
          (fun error => resolve None)
    end.

(** The [weatherAlerts] of [fetchAlerts]. *)
Definition weatherAlerts (stats : RouteStats) : list string :=
  pushIf (gtb (maxElevation stats) 1500)
         "High altitude route - weather conditions may change rapidly" [].

(** The list [fetchAlerts] hands to [setAlerts]; it runs for a route
    data object and a service that are both there.  [getTrafficInfo]
    is a method of the service that reads nothing but its argument and
    cannot fail, so the [catch] never runs. *)
Definition fetchAlerts (routeData : RouteData) : list string :=
  getTrafficInfo (points routeData)
  ++ terrainAlerts (stats routeData)
  ++ weatherAlerts (stats routeData).

(** The [alerts] the effect of [SafetyAlerts] leaves for the props
    [routeData] and [routeService]; [None] is a [null] route data
    object, and [routeService] tells whether the service prop is there.
    The guard [!routeData || !routeService ||
    routeData.points.length === 0] clears the list. *)
Definition alertsEffect (routeData : option RouteData) (routeService : bool)
  : list string :=
  match routeData with
  | None => []
  | Some data =>
      if negb routeService || (length (points data) =? 0)%nat
      then []
      else fetchAlerts data
  end.

(** Whether the panel shows its all-clear banner: it renders nothing
    without route data, and the banner when [alerts.length === 0]. *)
Definition allClear (routeData : option RouteData) (routeService : bool)
  : bool :=
  match routeData with
  | None => false
  | Some _ => (length (alertsEffect routeData routeService) =? 0)%nat
  end.

(** ** Route card ([RouteAlternatives.tsx]) *)

(** [a % b] on finite numbers, for a non-zero [b]: the remainder of the
    division truncated toward zero. *)
Definition remainder (a b : Q) : Q :=
  let quotient := a / b in
  let truncated :=
    if Qle_bool 0 quotient then Qfloor quotient else Qceiling quotient in
  a - b * inject_Z truncated.

(** An integer inside a template literal (below 1e21, where JavaScript
    still prints every digit). *)
Definition showInteger (z : Z) : string :=
  NilZero.string_of_int (Z.to_int z).

(** [formatTime(minutes)].  [minutes % 60] and [Math.round] are exact
    on doubles; [minutes / 60] rounds, but up to [10^15] minutes its
    [Math.floor] is the floor of the exact quotient, which is what
    [hours] is here.  For much longer times (1e21 minutes, say) the
    double quotient has no fractional part left and its floor is
    another integer than the exact one. *)
Definition formatTime (minutes : Q) : string :=
  let hours := Qfloor (minutes / 60) in
  let mins := Qfloor (remainder minutes 60 + (1 # 2)) in
  if (0 <? hours)%Z
  then (showInteger hours ++ "h " ++ showInteger mins ++ "m")%string
  else (showInteger mins ++ "m")%string.

(** A response the service treats as a failure. *)
Definition badResponse (response : PlacesResponse) : Prop :=
  snd response <> "OK"%string \/ fst response = None.

(** The three deductions of [getSafetyScore], one per ladder. *)
Definition gradePenalty (stats : RouteStats) : Z :=
  if gtb (maxGrade stats) 20 then 20
  else if gtb (maxGrade stats) 15 then 15
  else if gtb (maxGrade stats) 10 then 10
  else 0.

Definition gainPenalty (stats : RouteStats) : Z :=
  if gtb (totalElevationGain stats) 1000 then 15
  else if gtb (totalElevationGain stats) 500 then 10
  else 0.

Definition distancePenalty (stats : RouteStats) : Z :=
  if gtb (totalDistance stats) 20000 then 10
  else if gtb (totalDistance stats) 10000 then 5
  else 0.

(** The sorted-ness used for sampled indices. *)
Fixpoint increasing (l : list nat) : Prop :=
  match l with
  | a :: (b :: _) as rest => (a < b)%nat /\ increasing rest
  | _ => True
  end.

(** The segment covers ground: its [distanceChange] is positive. *)
Definition moving (previous current : RoutePoint) : Prop :=
  distance previous < distance current.

(** ** Concrete inputs *)

Definition examplePath : list LatLng :=
  [mkLatLng 0 0; mkLatLng 0 (1 # 100); mkLatLng 0 (2 # 100);
   mkLatLng (1 # 100) (2 # 100); mkLatLng (2 # 100) (2 # 100)].

Definition exampleLocations : list LatLng :=
  [mkLatLng 0 0; mkLatLng 0 (1 # 100)].

Definition exampleElevations : list ElevationResult :=
  [mkElevationResult (mkLatLng 0 0) 100;
   mkElevationResult (mkLatLng 0 (2 # 100)) 150;
   mkElevationResult (mkLatLng (2 # 100) (2 # 100)) 120].

(** A stand-in for the great-circle distance on concrete inputs. *)
Definition planarDistance (a b : LatLng) : Q :=
  Qabs (lat a - lat b) + Qabs (lng a - lng b).

Definition deniedResponse : ElevationResponse :=
  (None, "REQUEST_DENIED"%string).

Definition shortResponse : ElevationResponse :=
  (Some [mkElevationResult (mkLatLng 0 0) 100], "OK"%string).

Definition downhillRoute : list RoutePoint :=
  [mkRoutePoint 0 0 300 0; mkRoutePoint 0 (1 # 100) 250 1000;
   mkRoutePoint 0 (2 # 100) 100 2000].

Definition uphillRoute : list RoutePoint :=
  [mkRoutePoint 0 0 100 0; mkRoutePoint 0 (1 # 100) 250 1000;
   mkRoutePoint 0 (2 # 100) 300 2000].

Definition standingRoute : list RoutePoint :=
  [mkRoutePoint 0 0 100 0; mkRoutePoint 0 0 100 0; mkRoutePoint 0 0 100 0].

Definition stackedRoute : list RoutePoint :=
  [mkRoutePoint 0 0 0 0; mkRoutePoint 0 0 10 0; mkRoutePoint 0 0 0 0;
   mkRoutePoint 0 0 10 0; mkRoutePoint 0 0 0 0; mkRoutePoint 0 0 10 0;
   mkRoutePoint 0 0 0 0].

Definition steepDescentStats : RouteStats :=
  mkRouteStats 0 0 0 0 0 (-25) 0 0 0.

Definition gentleStats : RouteStats :=
  mkRouteStats 4000 100 80 320 300 5 (-4) 3 65.

Definition demandingStats : RouteStats :=
  mkRouteStats 25000 1200 900 1900 700 22 (-18) 9 495.

Definition exampleStart : LocationData :=
  mkLocationData "Trailhead" 0 0.

Definition exampleFinish : LocationData :=
  mkLocationData "Summit" (2 # 100) (2 # 100).

Definition photogenicPlace : PlaceResult :=
  mkPlaceResult "Lookout" (Some (45 # 10)) (Some ["photo-1"%string]).

(** Every provider answers once, successfully. *)
Definition answeringWorld : World :=
  mkWorld true
          [(Some (mkDirectionsResult [mkDirectionsRoute examplePath]),
            "OK"%string)]
          [(Some exampleElevations, "OK"%string)]
          [(Some [photogenicPlace], "OK"%string)].

(** The directions provider finds no route; the places provider is
    over its quota. *)
Definition refusingWorld : World :=
  mkWorld true
          [(None, "ZERO_RESULTS"%string)]
          [(Some exampleElevations, "OK"%string)]
          [(None, "OVER_QUERY_LIMIT"%string);
           (Some [photogenicPlace], "OK"%string)].

(** Two routes in doubles, a kilometre between the points: one with
    the whole-metre elevations 100, 150 and 120, one with the
    elevations 0.1, 0.2 and 0.9. *)
Definition wholeMetreRoute : list RoutePointD :=
  [pointD 100 1 0; pointD 150 1 1000; pointD 120 1 2000].

Definition decimalRoute : list RoutePointD :=
  [pointD 1 10 0; pointD 2 10 1000; pointD 9 10 2000].

(** * Proofs *)

(** ** Comparisons *)

Lemma gtb_true (a b : Q) : gtb a b = true <-> b < a.
Proof.
  unfold gtb. rewrite negb_true_iff, <- not_true_iff_false, Qle_bool_iff.
  split; intro H; [apply Qnot_le_lt | apply Qlt_not_le]; exact H.
Qed.

Lemma gtb_false (a b : Q) : gtb a b = false <-> a <= b.
Proof.
  unfold gtb. rewrite negb_false_iff. apply Qle_bool_iff.
Qed.

(** Case analysis on a comparison of the source, keeping the order fact. *)
Ltac case_gtb a b :=
  let H := fresh "Hcmp" in
  destruct (gtb a b) eqn:H;
  [apply gtb_true in H | apply gtb_false in H].

(** Under the guards of [calculateRouteStats] the source's [/] is the
    exact quotient: a division by a positive number never produces
    [Infinity] or [NaN]. *)
Lemma guarded_division_finite (a b : Q) :
  gtb b 0 = true -> div a b = Fin (a / b).
Proof.
  intro Hb. apply gtb_true in Hb. unfold div.
  destruct (Qeq_bool b 0) eqn:E; [|reflexivity].
  apply Qeq_bool_eq in E. rewrite E in Hb. lra.
Qed.

(** ** Statistics Aggregator *)

Lemma everySegment_from P first rest :
  everySegment P (first :: rest) -> segmentsFrom P first rest.
Proof.
  revert first. induction rest as [|current rest IH]; intros first H.
  - exact I.
  - split.
    + apply (H 0%nat); reflexivity.
    + apply IH. intros i p c Hp Hc. apply (H (S i)); assumption.
Qed.

Lemma last_cons {A} (l : list A) : forall a d, last (a :: l) d = last l a.
Proof.
  induction l as [|b l IH]; intros a d.
  - reflexivity.
  - change (last (a :: b :: l) d) with (last (b :: l) d).
    now rewrite (IH b d), (IH b a).
Qed.

Lemma statsStep_balance previous current acc :
  acc_elevationGain (statsStep previous current acc)
  - acc_elevationLoss (statsStep previous current acc)
  == acc_elevationGain acc - acc_elevationLoss acc
     + (elevation current - elevation previous).
Proof.
  unfold statsStep.
  case_gtb (elevation current - elevation previous) 0;
    case_gtb (distance current - distance previous) 0; cbn;
    try rewrite (Qabs_neg _ Hcmp); lra.
Qed.

Lemma statsLoop_balance rest : forall previous acc,
  acc_elevationGain (statsLoop previous rest acc)
  - acc_elevationLoss (statsLoop previous rest acc)
  == acc_elevationGain acc - acc_elevationLoss acc
     + (elevation (last rest previous) - elevation previous).
Proof.
  induction rest as [|current rest IH]; intros previous acc.
  - cbn. lra.
  - change (statsLoop previous (current :: rest) acc)
      with (statsLoop current rest (statsStep previous current acc)).
    rewrite IH, statsStep_balance.
    rewrite (last_cons rest current previous). lra.
Qed.

(** C9. On the empty point sequence [calculateRouteStats] returns the
    record whose nine fields are all 0; it does not fail. *)
Theorem calculateRouteStats_empty :
  calculateRouteStats [] = mkRouteStats 0 0 0 0 0 0 0 0 0.
Proof. reflexivity. Qed.

(** Round-trip conservation in the exact reading: on every non-empty
    point sequence the gain minus the loss is the elevation of the last
    point minus the elevation of the first.  In doubles the two sides
    agree when the loop does not round and can differ when it does;
    see the aggregator in doubles below. *)
Lemma elevation_conservation (first : RoutePoint) (rest : list RoutePoint) :
  let points := first :: rest in
  let stats := calculateRouteStats points in
  totalElevationGain stats - totalElevationLoss stats
  == elevation (last points first) - elevation first.
Proof.
  cbn zeta. unfold calculateRouteStats.
  cbn [totalElevationGain totalElevationLoss].
  rewrite statsLoop_balance. cbn [acc_elevationGain acc_elevationLoss].
  rewrite (last_cons rest first first). lra.
Qed.

Lemma segmentsFrom_every P first rest :
  segmentsFrom P first rest -> everySegment P (first :: rest).
Proof.
  revert first.
  induction rest as [|current rest IH]; intros first H i p c Hp Hc.
  - destruct i; discriminate.
  - destruct H as [Hhead Htail]. destruct i as [|i].
    + cbn in Hp, Hc. injection Hp as <-. injection Hc as <-. exact Hhead.
    + apply (IH current Htail i); assumption.
Qed.

(** A stationary segment leaves the four grade variables untouched. *)
Lemma statsStep_stationary previous current acc :
  stationary previous current ->
  acc_maxGrade (statsStep previous current acc) = acc_maxGrade acc
  /\ acc_minGrade (statsStep previous current acc) = acc_minGrade acc
  /\ acc_totalGrade (statsStep previous current acc) = acc_totalGrade acc
  /\ acc_gradeCount (statsStep previous current acc) = acc_gradeCount acc.
Proof.
  unfold stationary, statsStep. intro Hzero.
  case_gtb (distance current - distance previous) 0.
  - lra.
  - cbn. repeat split; reflexivity.
Qed.

Lemma statsLoop_stationary rest : forall previous acc,
  segmentsFrom stationary previous rest ->
  acc_maxGrade (statsLoop previous rest acc) = acc_maxGrade acc
  /\ acc_minGrade (statsLoop previous rest acc) = acc_minGrade acc
  /\ acc_totalGrade (statsLoop previous rest acc) = acc_totalGrade acc
  /\ acc_gradeCount (statsLoop previous rest acc) = acc_gradeCount acc.
Proof.
  induction rest as [|current rest IH]; intros previous acc Hseg.
  - repeat split; reflexivity.
  - destruct Hseg as [Hhead Htail]. cbn [statsLoop].
    destruct (IH current (statsStep previous current acc) Htail)
      as (Hmax & Hmin & Htot & Hcnt).
    destruct (statsStep_stationary previous current acc Hhead)
      as (Hmax' & Hmin' & Htot' & Hcnt').
    repeat split; congruence.
Qed.

(** C8. When every consecutive pair of a non-empty point sequence has
    zero distance change, [calculateRouteStats] reports
    [averageGrade = 0] and [maxGrade = minGrade = 0]: no segment reaches
    the division, so the three grade fields are the finite number 0
    (neither [NaN] nor [undefined]). *)
Theorem stationary_route_grades (first : RoutePoint) (rest : list RoutePoint) :
  everySegment stationary (first :: rest) ->
  let stats := calculateRouteStats (first :: rest) in
  averageGrade stats = 0 /\ maxGrade stats = 0 /\ minGrade stats = 0.
Proof.
  intros Hseg. apply everySegment_from in Hseg. cbn zeta.
  unfold calculateRouteStats. cbn [averageGrade maxGrade minGrade].
  destruct (statsLoop_stationary rest first
              (mkStatsAcc 0 0 (elevation first) (elevation first) 0 0 0 0)
              Hseg) as (Hmax & Hmin & _ & Hcnt).
  rewrite Hmax, Hmin, Hcnt. cbn. repeat split; reflexivity.
Qed.

(** The grade of a segment with positive length has the sign of its
    elevation change. *)
Lemma grade_nonpos (elevationChange distanceChange : Q) :
  elevationChange <= 0 -> 0 < distanceChange ->
  elevationChange / distanceChange * 100 <= 0.
Proof.
  intros He Hd.
  assert (Hinv : 0 < / distanceChange) by now apply Qinv_lt_0_compat.
  assert (Hq : elevationChange / distanceChange <= 0).
  { unfold Qdiv.
    setoid_replace 0 with (0 * / distanceChange) by ring.
    apply Qmult_le_compat_r; [exact He | now apply Qlt_le_weak]. }
  setoid_replace 0 with (0 * 100) by ring.
  apply Qmult_le_compat_r; [exact Hq | lra].
Qed.

Lemma grade_nonneg (elevationChange distanceChange : Q) :
  0 <= elevationChange -> 0 < distanceChange ->
  0 <= elevationChange / distanceChange * 100.
Proof.
  intros He Hd.
  assert (H : (- elevationChange) / distanceChange * 100 <= 0)
    by (apply grade_nonpos; [lra | exact Hd]).
  setoid_replace (- elevationChange / distanceChange * 100)
    with (- (elevationChange / distanceChange * 100)) in H
    by (field; intro E; rewrite E in Hd; lra).
  lra.
Qed.

Lemma statsStep_extremes previous current acc :
  acc_maxGrade acc <= acc_maxGrade (statsStep previous current acc)
  /\ acc_minGrade (statsStep previous current acc) <= acc_minGrade acc.
Proof.
  unfold statsStep.
  case_gtb (distance current - distance previous) 0; cbn.
  - split; [apply Q.le_max_l | apply Q.le_min_l].
  - split; lra.
Qed.

Lemma statsLoop_extremes rest : forall previous acc,
  acc_maxGrade acc <= acc_maxGrade (statsLoop previous rest acc)
  /\ acc_minGrade (statsLoop previous rest acc) <= acc_minGrade acc.
Proof.
  induction rest as [|current rest IH]; intros previous acc.
  - cbn. split; lra.
  - cbn [statsLoop].
    destruct (IH current (statsStep previous current acc)) as [Hmax Hmin].
    destruct (statsStep_extremes previous current acc) as [Hmax' Hmin'].
    split; lra.
Qed.

Lemma statsStep_descends previous current acc :
  descends previous current -> acc_maxGrade acc == 0 ->
  acc_maxGrade (statsStep previous current acc) == 0.
Proof.
  unfold descends, statsStep. intros Hdown Hzero.
  case_gtb (distance current - distance previous) 0; cbn.
  - rewrite Q.max_l; [exact Hzero |].
    rewrite Hzero. apply grade_nonpos; [lra | exact Hcmp].
  - exact Hzero.
Qed.

Lemma statsStep_climbs previous current acc :
  climbs previous current -> acc_minGrade acc == 0 ->
  acc_minGrade (statsStep previous current acc) == 0.
Proof.
  unfold climbs, statsStep. intros Hup Hzero.
  case_gtb (distance current - distance previous) 0; cbn.
  - rewrite Q.min_l; [exact Hzero |].
    rewrite Hzero. apply grade_nonneg; [lra | exact Hcmp].
  - exact Hzero.
Qed.

Lemma statsLoop_descends rest : forall previous acc,
  segmentsFrom descends previous rest -> acc_maxGrade acc == 0 ->
  acc_maxGrade (statsLoop previous rest acc) == 0.
Proof.
  induction rest as [|current rest IH]; intros previous acc Hseg Hzero.
  - exact Hzero.
  - destruct Hseg as [Hhead Htail]. cbn [statsLoop].
    apply IH; [exact Htail | now apply statsStep_descends].
Qed.

Lemma statsLoop_climbs rest : forall previous acc,
  segmentsFrom climbs previous rest -> acc_minGrade acc == 0 ->
  acc_minGrade (statsLoop previous rest acc) == 0.
Proof.
  induction rest as [|current rest IH]; intros previous acc Hseg Hzero.
  - exact Hzero.
  - destruct Hseg as [Hhead Htail]. cbn [statsLoop].
    apply IH; [exact Htail | now apply statsStep_climbs].
Qed.

(** C10. Both grade extremes are seeded at 0: on every non-empty point
    sequence [maxGrade >= 0] and [minGrade <= 0]; a route whose
    elevation never rises from one point to the next reports
    [maxGrade == 0], and one whose elevation never falls reports
    [minGrade == 0]. *)
Theorem grade_extremes_seeded_at_zero
  (first : RoutePoint) (rest : list RoutePoint) :
  let points := first :: rest in
  let stats := calculateRouteStats points in
  (0 <= maxGrade stats /\ minGrade stats <= 0)
  /\ (everySegment descends points -> maxGrade stats == 0)
  /\ (everySegment climbs points -> minGrade stats == 0).
Proof.
  cbn zeta. unfold calculateRouteStats. cbn [maxGrade minGrade].
  set (acc0 := mkStatsAcc 0 0 (elevation first) (elevation first) 0 0 0 0).
  repeat split.
  - apply (statsLoop_extremes rest first acc0).
  - apply (statsLoop_extremes rest first acc0).
  - intro H. apply statsLoop_descends;
      [now apply everySegment_from | reflexivity].
  - intro H. apply statsLoop_climbs;
      [now apply everySegment_from | reflexivity].
Qed.

Lemma stationary_route_grades_witness :
  let stats := calculateRouteStats standingRoute in
  averageGrade stats = 0 /\ maxGrade stats = 0 /\ minGrade stats = 0.
Proof.
  apply (stationary_route_grades (mkRoutePoint 0 0 100 0)
           [mkRoutePoint 0 0 100 0; mkRoutePoint 0 0 100 0]).
  apply segmentsFrom_every. cbn. unfold stationary. cbn.
  repeat split; reflexivity.
Defined.

Lemma grade_extremes_seeded_at_zero_witness :
  maxGrade (calculateRouteStats downhillRoute) == 0
  /\ minGrade (calculateRouteStats uphillRoute) == 0.
Proof.
  split.
  - apply (grade_extremes_seeded_at_zero (mkRoutePoint 0 0 300 0)
             [mkRoutePoint 0 (1 # 100) 250 1000;
              mkRoutePoint 0 (2 # 100) 100 2000]).
    apply segmentsFrom_every. cbn. unfold descends. cbn.
    repeat split; lra.
  - apply (grade_extremes_seeded_at_zero (mkRoutePoint 0 0 100 0)
             [mkRoutePoint 0 (1 # 100) 250 1000;
              mkRoutePoint 0 (2 # 100) 300 2000]).
    apply segmentsFrom_every. cbn. unfold climbs. cbn.
    repeat split; lra.
Defined.

(** ** Difficulty Classifier *)

Lemma factor_mono (x y t3 t2 t1 : Q) :
  x <= y -> (factor x t3 t2 t1 <= factor y t3 t2 t1)%Z.
Proof.
  intro Hxy. unfold factor.
  case_gtb x t3; case_gtb x t2; case_gtb x t1;
    case_gtb y t3; case_gtb y t2; case_gtb y t1;
    first [lia | exfalso; lra].
Qed.

Lemma factor_range (x t3 t2 t1 : Q) : (0 <= factor x t3 t2 t1 <= 3)%Z.
Proof.
  unfold factor.
  destruct (gtb x t3), (gtb x t2), (gtb x t1); lia.
Qed.

(** The score is monotone in the distance, the gain and the absolute
    value of the maximum grade. *)
Lemma difficultyScore_mono (s1 s2 : RouteStats) :
  totalDistance s1 <= totalDistance s2 ->
  totalElevationGain s1 <= totalElevationGain s2 ->
  Qabs (maxGrade s1) <= Qabs (maxGrade s2) ->
  (difficultyScore s1 <= difficultyScore s2)%Z.
Proof.
  intros Hd Hg Hm. unfold difficultyScore.
  assert (Hkm : totalDistance s1 / 1000 <= totalDistance s2 / 1000).
  { unfold Qdiv. apply Qmult_le_compat_r; [exact Hd | now compute]. }
  pose proof (factor_mono _ _ 20 10 5 Hkm).
  pose proof (factor_mono _ _ 1000 500 200 Hg).
  pose proof (factor_mono _ _ 20 15 10 Hm).
  lia.
Qed.

Lemma tier_of_score_mono (s1 s2 : RouteStats) :
  (difficultyScore s1 <= difficultyScore s2)%Z ->
  (tier (calculateDifficulty s1) <= tier (calculateDifficulty s2))%nat.
Proof.
  intro Hle. unfold calculateDifficulty.
  generalize (difficultyScore s1) (difficultyScore s2) Hle. clear.
  intros n1 n2 Hle.
  destruct (Z.leb_spec 7 n1), (Z.leb_spec 5 n1), (Z.leb_spec 3 n1),
    (Z.leb_spec 7 n2), (Z.leb_spec 5 n2), (Z.leb_spec 3 n2);
    cbn; lia.
Qed.

(** C4, as the code has it.  The classifier scores [Math.abs(maxGrade)],
    so it is monotone in [totalDistance], in [totalElevationGain], and
    in [maxGrade] over the non-negative grades: raising any of the three
    (the others not lowered, the lower [maxGrade] at least 0) never
    lowers the tier in [easy < moderate < hard < extreme]. *)
Theorem calculateDifficulty_monotone (s1 s2 : RouteStats) :
  totalDistance s1 <= totalDistance s2 ->
  totalElevationGain s1 <= totalElevationGain s2 ->
  0 <= maxGrade s1 -> maxGrade s1 <= maxGrade s2 ->
  (tier (calculateDifficulty s1) <= tier (calculateDifficulty s2))%nat.
Proof.
  intros Hd Hg H0 Hm.
  apply tier_of_score_mono, difficultyScore_mono; try assumption.
  rewrite !Qabs_pos; lra.
Qed.

(** C7. With [totalDistance = 25000], [totalElevationGain = 1200] and
    [maxGrade = 22], whatever the other six fields, the difficulty score
    is 3 + 3 + 3 = 9, the difficulty is [extreme], and the safety score
    is 100 - 20 - 15 - 10 = 55. *)
Theorem scenario_extreme_55
  (loss maxElev minElev minG avgG time : Q) :
  let stats := mkRouteStats 25000 1200 loss maxElev minElev 22 minG avgG time in
  difficultyScore stats = 9%Z
  /\ calculateDifficulty stats = extreme
  /\ getSafetyScore stats = 55%Z.
Proof.
  cbn zeta. repeat split; reflexivity.
Qed.

(** ** Elevation Enricher *)

Lemma Qsum_firstn_mono (l : list Q) :
  Forall (fun x => 0 <= x) l ->
  forall i j, (i <= j)%nat -> Qsum (firstn i l) <= Qsum (firstn j l).
Proof.
  induction 1 as [|x l Hx Hl IH]; intros i j Hij.
  - rewrite !firstn_nil. apply Qle_refl.
  - destruct i as [|i], j as [|j]; try lia; cbn [firstn];
      repeat change (Qsum (x :: ?t)) with (x + Qsum t);
      change (Qsum []) with 0.
    + lra.
    + assert (H0 : 0 <= Qsum (firstn j l)).
      { specialize (IH 0%nat j (Nat.le_0_l j)). exact IH. }
      lra.
    + specialize (IH i j ltac:(lia)). lra.
Qed.

Section EnricherProofs.

Variable computeDistanceBetween : LatLng -> LatLng -> Q.

(** A great-circle distance is never negative. *)
Hypothesis distance_nonneg : forall a b, 0 <= computeDistanceBetween a b.

Let segments := segmentLengths computeDistanceBetween.
Let loop := createLoop computeDistanceBetween.

Lemma segmentLengths_nonneg (locs : list LatLng) :
  Forall (fun x => 0 <= x) (segments locs).
Proof.
  induction locs as [|a [|b locs] IH]; try constructor.
  - apply distance_nonneg.
  - exact IH.
Qed.

Lemma createLoop_length (rest : list ElevationResult) :
  forall prevPoint total,
    length (loop prevPoint total rest) = length rest.
Proof.
  induction rest as [|result rest IH]; intros prevPoint total.
  - reflexivity.
  - cbn. f_equal. apply IH.
Qed.

(** Past the first element, the point at offset [i] carries the total
    so far plus the next [i + 1] segment lengths. *)
Lemma createLoop_running_sum (rest : list ElevationResult) :
  forall prev total i p,
    nth_error (loop (Some prev) total rest) i = Some p ->
    distance p
    == total
       + Qsum (firstn (S i) (segments (location prev :: map location rest))).
Proof.
  induction rest as [|result rest IH]; intros prev total i p Hnth.
  - destruct i; discriminate.
  - destruct i as [|i].
    + cbn in Hnth. injection Hnth as <-. cbn. destruct rest; cbn; lra.
    + cbn in Hnth. apply IH in Hnth. rewrite Hnth.
      change (segments (location prev :: map location (result :: rest)))
        with (computeDistanceBetween (location prev) (location result)
              :: segments (location result :: map location rest)).
      change (firstn (S (S i)) (?x :: ?l)) with (x :: firstn (S i) l).
      change (Qsum (?x :: ?l)) with (x + Qsum l).
      lra.
Qed.

Lemma createRoutePoints_running_sum elevationData fullPath i p :
  nth_error (createRoutePoints computeDistanceBetween elevationData fullPath) i
    = Some p ->
  distance p == Qsum (firstn i (segments (map location elevationData))).
Proof.
  unfold createRoutePoints. destruct elevationData as [|first rest].
  - destruct i; discriminate.
  - destruct i as [|i]; cbn [createLoop nth_error].
    + intros [= <-]. cbn. reflexivity.
    + intro Hnth. apply createLoop_running_sum in Hnth.
      rewrite Hnth. cbn [map]. lra.
Qed.

(** C2. For a non-empty elevation-result sequence, [createRoutePoints]
    returns one point per result; the first point has distance 0; the
    distance of point [i] is the sum of the first [i] great-circle
    segment lengths, that is of the segments up to and including the
    one ending at [i]; and the distances never decrease along the
    sequence. *)
Theorem createRoutePoints_distances
  (elevationData : list ElevationResult) (fullPath : list LatLng) :
  elevationData <> [] ->
  let points :=
    createRoutePoints computeDistanceBetween elevationData fullPath in
  length points = length elevationData
  /\ (exists p0, nth_error points 0 = Some p0 /\ distance p0 == 0)
  /\ (forall i p, nth_error points i = Some p ->
        distance p
        == Qsum (firstn i (segmentLengths computeDistanceBetween
                             (map location elevationData))))
  /\ (forall i j p q, (i <= j)%nat ->
        nth_error points i = Some p -> nth_error points j = Some q ->
        distance p <= distance q).
Proof.
  intros Hne points. subst points. repeat split.
  - apply createLoop_length.
  - destruct elevationData as [|first rest]; [contradiction|].
    eexists. split; [reflexivity | cbn; reflexivity].
  - intros i p. apply createRoutePoints_running_sum.
  - intros i j p q Hij Hp Hq.
    apply createRoutePoints_running_sum in Hp, Hq. rewrite Hp, Hq.
    apply Qsum_firstn_mono; [apply segmentLengths_nonneg | exact Hij].
Qed.

End EnricherProofs.

(** ** Path Sampler *)

Lemma Qred_inject_Z (k : Z) : Qred (inject_Z k) = inject_Z k.
Proof.
  unfold Qred, inject_Z.
  generalize (Z.ggcd_gcd k 1) (Z.ggcd_correct_divisors k 1).
  destruct (Z.ggcd k 1) as (g, (a, b)). cbn [fst snd].
  rewrite Z.gcd_1_r. intros -> [Ha Hb].
  rewrite Z.mul_1_l in Ha, Hb. now subst.
Qed.

(** Reading an array at a non-negative integer index. *)
Lemma index_integer {A} (arr : list A) (k : Z) :
  (0 <= k)%Z -> index arr (Fin (inject_Z k)) = nth_error arr (Z.to_nat k).
Proof.
  intro Hk. unfold index. rewrite Qred_inject_Z. cbn [inject_Z Qden Qnum].
  destruct (Z.leb_spec 0 k); [reflexivity | lia].
Qed.

Lemma Qfloor_half (n : Z) : Qfloor (inject_Z n + (1 # 2)) = n.
Proof.
  unfold Qfloor, Qplus, inject_Z. cbn [Qnum Qden].
  symmetry. apply (Z.div_unique _ _ n 1); lia.
Qed.

Lemma div_by_positive (a : Q) (b : Z) :
  (0 < b)%Z -> div a (inject_Z b) = Fin (a / inject_Z b).
Proof.
  intro Hb. unfold div.
  destruct (Qeq_bool (inject_Z b) 0) eqn:E; [|reflexivity].
  apply Qeq_bool_eq in E. unfold Qeq in E. cbn in E. lia.
Qed.

Section SamplerProofs.

Variables L N : nat.
Hypothesis N_ge_2 : (2 <= N)%nat.
Hypothesis L_pos : (1 <= L)%nat.

Let a : Z := (Z.of_nat L - 1)%Z.
Let b : Z := (Z.of_nat N - 1)%Z.

(** The exact position [i * (L - 1) / (N - 1)] lies between 0 and
    [L - 1] for [i] in [0 .. N - 1]. *)
Lemma position_bounds (i : nat) :
  (i < N)%nat ->
  0 <= inject_Z (Z.of_nat i) * inject_Z a / inject_Z b
  /\ inject_Z (Z.of_nat i) * inject_Z a / inject_Z b <= inject_Z a.
Proof.
  intro Hi.
  assert (Hb : 0 < inject_Z b).
  { change 0 with (inject_Z 0). rewrite <- Zlt_Qlt. subst b. lia. }
  split.
  - apply Qle_shift_div_l; [exact Hb |].
    rewrite <- inject_Z_mult. setoid_replace (0 * inject_Z b) with 0 by ring.
    change 0 with (inject_Z 0). rewrite <- Zle_Qle. subst a. nia.
  - apply Qle_shift_div_r; [exact Hb |].
    rewrite <- !inject_Z_mult, <- Zle_Qle. subst a b. nia.
Qed.

Lemma nearestIndex_floor (i : nat) :
  (i < N)%nat ->
  let k := Qfloor (inject_Z (Z.of_nat i) * inject_Z a / inject_Z b + (1 # 2)) in
  (0 <= k <= a)%Z /\ nearestIndex L N i = Z.to_nat k.
Proof.
  intros Hi k. destruct (position_bounds i Hi) as [Hlo Hhi].
  split; [split | reflexivity].
  - change 0%Z with (Qfloor 0). apply Qfloor_resp_le. lra.
  - rewrite <- (Qfloor_half a). apply Qfloor_resp_le. lra.
Qed.

Lemma nearestIndex_in_range (i : nat) :
  (i < N)%nat -> (nearestIndex L N i < L)%nat.
Proof.
  intro Hi. destruct (nearestIndex_floor i Hi) as [Hk ->].
  subst a. lia.
Qed.

Lemma nearestIndex_first : nearestIndex L N 0 = 0%nat.
Proof.
  unfold nearestIndex. fold a b.
  assert (E : inject_Z (Z.of_nat 0) * inject_Z a / inject_Z b + (1 # 2)
              == inject_Z 0 + (1 # 2)).
  { cbn [Z.of_nat]. unfold Qdiv. ring. }
  now rewrite E, Qfloor_half.
Qed.

Lemma nearestIndex_last : nearestIndex L N (N - 1) = (L - 1)%nat.
Proof.
  unfold nearestIndex. fold a b.
  assert (E : inject_Z (Z.of_nat (N - 1)) * inject_Z a / inject_Z b + (1 # 2)
              == inject_Z a + (1 # 2)).
  { replace (Z.of_nat (N - 1)) with b by (subst b; lia).
    field. intro H. unfold Qeq in H. cbn in H. subst b. lia. }
  rewrite E, Qfloor_half. subst a. lia.
Qed.

Context {A : Type}.
Variable path : list A.

(** One turn of the loop reads the path at the index the
    specification names. *)
Lemma sampled_entry (i : nat) :
  (i < N)%nat ->
  index path
    (round (mul (Fin (inject_Z (Z.of_nat i)))
                (div (inject_Z a) (inject_Z b))))
  = nth_error path (nearestIndex L N i).
Proof.
  intro Hi. rewrite div_by_positive by (subst b; lia).
  cbn [mul round].
  assert (E : inject_Z (Z.of_nat i) * (inject_Z a / inject_Z b) + (1 # 2)
              == inject_Z (Z.of_nat i) * inject_Z a / inject_Z b + (1 # 2)).
  { unfold Qdiv. ring. }
  rewrite E. destruct (nearestIndex_floor i Hi) as [Hk ->].
  apply index_integer, Hk.
Qed.

Lemma sampleLoop_entries (todo : nat) : forall i,
  (i + todo <= N)%nat ->
  sampleLoop path (div (inject_Z a) (inject_Z b)) i todo
  = map (fun k => nth_error path (nearestIndex L N k)) (seq i todo).
Proof.
  induction todo as [|todo IH]; intros i Hi.
  - reflexivity.
  - cbn [sampleLoop seq map]. f_equal.
    + apply sampled_entry. lia.
    + apply IH. lia.
Qed.

End SamplerProofs.

Lemma nth_error_map_seq {B} (f : nat -> B) (n i : nat) :
  (i < n)%nat -> nth_error (map f (seq 0 n)) i = Some (f i).
Proof.
  intro Hi. apply map_nth_error.
  rewrite (nth_error_nth' _ 0%nat) by (rewrite length_seq; exact Hi).
  now rewrite seq_nth.
Qed.

(** The sampler in the exact reading.  For a sample target [N >= 2]
    and a path of length [L], [sampleRoutePoints] returns [min(L, N)]
    entries, none of them [undefined]; the first is the first
    coordinate of the path and the last is its last coordinate; for
    [L <= N] the result is the path itself, and for [L > N] entry [i]
    is the coordinate at index [round(i * (L - 1) / (N - 1))].  The
    sampler in doubles can read the index below at a position that is
    exactly half way; see the sampler in doubles below. *)
Lemma sampleRoutePoints_spec {A : Type} (path : list A) (N : nat) :
  (2 <= N)%nat ->
  let L := length path in
  let samples := sampleRoutePoints path N in
  length samples = Nat.min L N
  /\ (forall c, nth_error path 0 = Some c ->
        nth_error samples 0 = Some (Some c))
  /\ (forall c, nth_error path (L - 1) = Some c ->
        nth_error samples (length samples - 1) = Some (Some c))
  /\ ((L <= N)%nat -> samples = map Some path)
  /\ ((N < L)%nat ->
      forall i, (i < N)%nat ->
        exists c, nth_error path (nearestIndex L N i) = Some c
                  /\ nth_error samples i = Some (Some c)).
Proof.
  intros HN L samples. subst samples. unfold sampleRoutePoints. fold L.
  destruct (Nat.leb_spec L N) as [Hle | Hlt].
  - rewrite length_map. fold L. repeat split.
    + lia.
    + intros c Hc. now apply map_nth_error.
    + intros c Hc. now apply map_nth_error.
    + lia.
  - assert (HL : (1 <= L)%nat) by lia.
    rewrite (sampleLoop_entries L N HN HL path N 0%nat) by lia.
    assert (Hentry : forall i c, (i < N)%nat ->
              nth_error path (nearestIndex L N i) = Some c ->
              nth_error (map (fun k => nth_error path (nearestIndex L N k))
                             (seq 0 N)) i = Some (Some c)).
    { intros i c Hi Hc. rewrite nth_error_map_seq by exact Hi. now f_equal. }
    rewrite length_map, length_seq. repeat split.
    + lia.
    + intros c Hc. apply Hentry; [lia |].
      now rewrite nearestIndex_first.
    + intros c Hc. apply Hentry; [lia |].
      now rewrite nearestIndex_last by lia.
    + lia.
    + intros _ i Hi.
      destruct (nth_error path (nearestIndex L N i)) as [c|] eqn:Hc.
      * exists c. split; [reflexivity | now apply Hentry].
      * apply nth_error_None in Hc. fold L in Hc.
        assert (nearestIndex L N i < L)%nat
          by (apply nearestIndex_in_range; lia).
        lia.
Qed.

(** With a sample target of 1 the interval is [Infinity], the index
    [0 * Infinity] is [NaN], and the single sample is [undefined]. *)
Example sampleRoutePoints_target_one :
  sampleRoutePoints examplePath 1 = [None].
Proof. reflexivity. Qed.

Lemma sampleRoutePoints_spec_witness :
  let L := length examplePath in
  let samples := sampleRoutePoints examplePath 3 in
  length samples = Nat.min L 3
  /\ (forall c, nth_error examplePath 0 = Some c ->
        nth_error samples 0 = Some (Some c))
  /\ (forall c, nth_error examplePath (L - 1) = Some c ->
        nth_error samples (length samples - 1) = Some (Some c))
  /\ ((L <= 3)%nat -> samples = map Some examplePath)
  /\ ((3 < L)%nat ->
      forall i, (i < 3)%nat ->
        exists c, nth_error examplePath (nearestIndex L 3 i) = Some c
                  /\ nth_error samples i = Some (Some c)).
Proof.
  apply (sampleRoutePoints_spec examplePath 3). lia.
Defined.

(** ** Path Sampler in doubles *)






Lemma productAccurateb_sound (L N i : nat) :
  productAccurateb L N i = true -> productAccurate L N i.
Proof.
  unfold productAccurateb, productAccurate.
  destruct (Double.value _) as [p | | |]; try discriminate.
  intro Hcheck. exists p. split; [reflexivity |].
  apply Qnot_le_lt. intro Hle.
  apply Qle_bool_iff in Hle. rewrite Hle in Hcheck. discriminate.
Qed.

Lemma accurateUpTo_sound (longest L N i : nat) :
  accurateUpTo longest = true ->
  (2 <= N)%nat -> (N < L)%nat -> (L <= longest)%nat -> (i < N)%nat ->
  productAccurate L N i.
Proof.
  intros Hall HN HL Hlongest Hi. apply productAccurateb_sound.
  unfold accurateUpTo in Hall.
  rewrite forallb_forall in Hall.
  specialize (Hall L ltac:(apply in_seq; lia)).
  rewrite forallb_forall in Hall.
  specialize (Hall N ltac:(apply in_seq; lia)).
  rewrite forallb_forall in Hall.
  apply Hall. apply in_seq. lia.
Qed.

Lemma accurateUpTo_sixty_four : accurateUpTo 64 = true.
Proof. vm_compute. reflexivity. Qed.

(** The double products are accurate on every path of up to 64
    coordinates, whatever the sample target. *)
Lemma productAccurate_checked (L N i : nat) :
  (2 <= N)%nat -> (N < L)%nat -> (L <= 64)%nat -> (i < N)%nat ->
  productAccurate L N i.
Proof. exact (accurateUpTo_sound 64 L N i accurateUpTo_sixty_four). Qed.





(** ** Statistics Aggregator in doubles *)

Lemma magnitude_positive (m : positive) (e : Z) :
  0 < match e with
      | Z0 => inject_Z (Zpos m)
      | Zpos k => inject_Z (Zpos m * 2 ^ Zpos k)
      | Zneg k => Zpos m # 2 ^ k
      end.
Proof.
  destruct e as [|k|k]; unfold Qlt; cbn [Qnum Qden inject_Z].
  - lia.
  - pose proof (Z.pow_pos_nonneg 2 (Zpos k)). lia.
  - lia.
Qed.

Lemma Fin_injective (a b : Q) : Fin a = Fin b -> a = b.
Proof. now intros [= ->]. Qed.

(** A finite double that fails [f > 0] stands for a number that is at
    most 0. *)
Lemma not_gt_zero (f : Double.float) (p : Q) :
  Double.gt f PrimFloat.zero = false -> Double.value f = Fin p -> p <= 0.
Proof.
  unfold Double.gt, Double.value. rewrite FloatAxioms.ltb_spec.
  change (FloatOps.Prim2SF PrimFloat.zero) with (SpecFloat.S754_zero false).
  destruct (FloatOps.Prim2SF f) as [s | s | | s m e];
    cbn [SpecFloat.SFltb SpecFloat.SFcompare].
  - intros _ H. apply Fin_injective in H. subst p. lra.
  - destruct s; discriminate.
  - discriminate.
  - pose proof (magnitude_positive m e) as Hpos.
    destruct s; [| discriminate].
    intros _ H. apply Fin_injective in H. subst p. lra.
Qed.

(** [Math.abs] of a finite double is exact. *)
Lemma abs_exact (f : Double.float) (p : Q) :
  Double.value f = Fin p ->
  exists p', Double.value (PrimFloat.abs f) = Fin p' /\ p' == Qabs p.
Proof.
  unfold Double.value. rewrite FloatAxioms.abs_spec.
  destruct (FloatOps.Prim2SF f) as [s | s | | s m e];
    cbn [SpecFloat.SFabs].
  - intros H. apply Fin_injective in H. subst p.
    exists 0. split; reflexivity.
  - destruct s; discriminate.
  - discriminate.
  - pose proof (magnitude_positive m e) as Hpos.
    intros H. apply Fin_injective in H. subst p.
    eexists. split; [reflexivity |].
    destruct s.
    + rewrite Qabs_opp, Qabs_pos; [reflexivity | lra].
    + rewrite Qabs_pos; [reflexivity | lra].
Qed.

Lemma rational_of_value (f : Double.float) (p : Q) :
  Double.value f = Fin p -> Double.rational f = p.
Proof. unfold Double.rational. now intros ->. Qed.

Lemma finite_of_value (f : Double.float) (p : Q) :
  Double.value f = Fin p -> Double.finite f = true.
Proof. unfold Double.finite. now intros ->. Qed.

(** An iteration that does not round keeps gain and loss finite and
    moves [gain - loss] by the elevation change. *)
Lemma statsStepD_balance previous current acc :
  iterationExact previous current acc ->
  Double.finite (accd_elevationGain acc) = true ->
  Double.finite (accd_elevationLoss acc) = true ->
  let acc' := statsStepD previous current acc in
  Double.finite (accd_elevationGain acc') = true
  /\ Double.finite (accd_elevationLoss acc') = true
  /\ balanceD acc'
     == balanceD acc
        + (Double.rational (d_elevation current)
           - Double.rational (d_elevation previous)).
Proof.
  unfold iterationExact, exactDifference, exactSum, exactly, balanceD.
  cbn zeta.
  set (elevationChange :=
         PrimFloat.sub (d_elevation current) (d_elevation previous)).
  intros [(change & Hchange & Hdifference) Hsum] Hgain Hloss.
  assert (Hacc :
    accd_elevationGain (statsStepD previous current acc)
    = (if Double.gt elevationChange PrimFloat.zero
       then PrimFloat.add (accd_elevationGain acc) elevationChange
       else accd_elevationGain acc)
    /\ accd_elevationLoss (statsStepD previous current acc)
       = (if Double.gt elevationChange PrimFloat.zero
          then accd_elevationLoss acc
          else PrimFloat.add (accd_elevationLoss acc)
                             (PrimFloat.abs elevationChange))).
  { unfold statsStepD. fold elevationChange.
    destruct (Double.gt (PrimFloat.sub (d_distance current)
                                       (d_distance previous))
                        PrimFloat.zero); split; reflexivity. }
  destruct Hacc as [-> ->].
  rewrite (rational_of_value _ _ Hchange) in Hsum.
  destruct (Double.gt elevationChange PrimFloat.zero) eqn:Hsign.
  - destruct Hsum as (gain' & Hvalue & Hgain').
    rewrite (rational_of_value _ _ Hvalue).
    split; [exact (finite_of_value _ _ Hvalue) | split; [exact Hloss |]].
    rewrite Hgain', Hdifference. ring.
  - destruct (abs_exact _ _ Hchange) as (magnitude & Habs & Hmagnitude).
    rewrite (rational_of_value _ _ Habs) in Hsum.
    destruct Hsum as (loss' & Hvalue & Hloss').
    rewrite (rational_of_value _ _ Hvalue).
    split; [exact Hgain | split; [exact (finite_of_value _ _ Hvalue) |]].
    pose proof (not_gt_zero _ _ Hsign Hchange) as Hdown.
    rewrite Hloss', Hmagnitude, (Qabs_neg _ Hdown), Hdifference. ring.
Qed.

Lemma statsLoopD_balance rest : forall previous acc,
  loopExact previous rest acc ->
  Double.finite (accd_elevationGain acc) = true ->
  Double.finite (accd_elevationLoss acc) = true ->
  let acc' := statsLoopD previous rest acc in
  Double.finite (accd_elevationGain acc') = true
  /\ Double.finite (accd_elevationLoss acc') = true
  /\ balanceD acc'
     == balanceD acc
        + (Double.rational (d_elevation (last rest previous))
           - Double.rational (d_elevation previous)).
Proof.
  induction rest as [|current rest IH]; intros previous acc Hexact Hgain Hloss.
  - cbn. repeat split; try assumption. ring.
  - destruct Hexact as [Hstep Hrest].
    destruct (statsStepD_balance previous current acc Hstep Hgain Hloss)
      as (Hgain' & Hloss' & Hbalance).
    destruct (IH current (statsStepD previous current acc)
                 Hrest Hgain' Hloss') as (Hgain'' & Hloss'' & Hbalance').
    cbn [statsLoopD]. rewrite (last_cons rest current previous).
    split; [exact Hgain'' | split; [exact Hloss'' |]].
    cbn zeta in Hbalance'. rewrite Hbalance', Hbalance. ring.
Qed.

(** C3. Round-trip conservation in doubles.  On a non-empty point
    sequence on which no iteration rounds, neither in
    [current.elevation - previous.elevation] nor in the [+=] that
    follows, the reported gain and loss are finite and the gain minus
    the loss is the elevation of the last point minus the elevation of
    the first. *)
Theorem elevation_conservation_double
  (first : RoutePointD) (rest : list RoutePointD) :
  loopExact first rest (initialAccD first) ->
  let points := first :: rest in
  let stats := calculateRouteStatsD points in
  Double.finite (d_totalElevationGain stats) = true
  /\ Double.finite (d_totalElevationLoss stats) = true
  /\ Double.rational (d_totalElevationGain stats)
     - Double.rational (d_totalElevationLoss stats)
     == Double.rational (d_elevation (last points first))
        - Double.rational (d_elevation first).
Proof.
  intros Hexact. cbn zeta. unfold calculateRouteStatsD.
  cbn [d_totalElevationGain d_totalElevationLoss].
  destruct (statsLoopD_balance rest first (initialAccD first) Hexact
              eq_refl eq_refl) as (Hgain & Hloss & Hbalance).
  rewrite (last_cons rest first first).
  split; [exact Hgain | split; [exact Hloss |]].
  unfold balanceD in Hbalance. rewrite Hbalance.
  cbn [initialAccD accd_elevationGain accd_elevationLoss].
  change (Double.rational PrimFloat.zero) with 0. ring.
Qed.

Lemma elevation_conservation_double_witness :
  let stats := calculateRouteStatsD wholeMetreRoute in
  Double.finite (d_totalElevationGain stats) = true
  /\ Double.finite (d_totalElevationLoss stats) = true
  /\ Double.rational (d_totalElevationGain stats)
     - Double.rational (d_totalElevationLoss stats)
     == Double.rational (d_elevation (last wholeMetreRoute (pointD 100 1 0)))
        - Double.rational (d_elevation (pointD 100 1 0)).
Proof.
  apply (elevation_conservation_double
           (pointD 100 1 0) [pointD 150 1 1000; pointD 120 1 2000]).
  vm_compute.
  repeat split; eexists; split; vm_compute; reflexivity.
Defined.

(** With the elevations 0.1, 0.2 and 0.9 the loop rounds: the gain is
    [0.7999999999999999], the loss is 0, and the difference of the last
    and the first elevation is [0.8], in doubles and as numbers. *)
Lemma elevation_conservation_rounds :
  let stats := calculateRouteStatsD decimalRoute in
  let first := pointD 1 10 0 in
  let final := last decimalRoute first in
  Double.finite (d_totalElevationGain stats) = true
  /\ Double.finite (d_totalElevationLoss stats) = true
  /\ PrimFloat.ltb
       (PrimFloat.sub (d_totalElevationGain stats)
                      (d_totalElevationLoss stats))
       (PrimFloat.sub (d_elevation final) (d_elevation first)) = true
  /\ Double.rational (d_totalElevationGain stats)
     - Double.rational (d_totalElevationLoss stats)
     < Double.rational (d_elevation final)
       - Double.rational (d_elevation first).
Proof. vm_compute. repeat split. Qed.

(** ** Concrete instances *)

Lemma planarDistance_nonneg (a b : LatLng) : 0 <= planarDistance a b.
Proof.
  unfold planarDistance.
  pose proof (Qabs_nonneg (lat a - lat b)).
  pose proof (Qabs_nonneg (lng a - lng b)). lra.
Qed.

Lemma createRoutePoints_distances_witness :
  let points :=
    createRoutePoints planarDistance exampleElevations examplePath in
  length points = length exampleElevations
  /\ (exists p0, nth_error points 0 = Some p0 /\ distance p0 == 0)
  /\ (forall i p, nth_error points i = Some p ->
        distance p
        == Qsum (firstn i (segmentLengths planarDistance
                             (map location exampleElevations))))
  /\ (forall i j p q, (i <= j)%nat ->
        nth_error points i = Some p -> nth_error points j = Some q ->
        distance p <= distance q).
Proof.
  apply (createRoutePoints_distances planarDistance planarDistance_nonneg
           exampleElevations examplePath).
  discriminate.
Defined.

(** The claim C4 as written fails below zero: raising [maxGrade] from
    -25 to 0, every other field unchanged, lowers the tier from
    [moderate] to [easy]. *)
Lemma calculateDifficulty_not_monotone_below_zero :
  maxGrade steepDescentStats < maxGrade zeroStats
  /\ totalDistance steepDescentStats = totalDistance zeroStats
  /\ totalElevationGain steepDescentStats = totalElevationGain zeroStats
  /\ calculateDifficulty steepDescentStats = moderate
  /\ calculateDifficulty zeroStats = easy
  /\ (tier (calculateDifficulty zeroStats)
      < tier (calculateDifficulty steepDescentStats))%nat.
Proof.
  repeat split. cbn. lia.
Qed.

Lemma calculateDifficulty_monotone_witness :
  (tier (calculateDifficulty gentleStats)
   <= tier (calculateDifficulty demandingStats))%nat.
Proof.
  apply (calculateDifficulty_monotone gentleStats demandingStats);
    cbn; lra.
Defined.

(** ** Elevation batch call *)

(** C5, as the code has it.  [getElevationData] makes one request and
    settles on its response: it rejects with
    ["Elevation request failed: " ++ status] whenever the status is not
    ["OK"] or the result set is [null], leaving every later response of
    the provider unused (no retry); with status ["OK"] it resolves with
    the result set it was given, whatever its length. *)
Theorem getElevationData_outcome
  (locations : list LatLng) (results : option (list ElevationResult))
  (status : string) (later : list ElevationResponse) :
  let outcome := getElevationData locations ((results, status) :: later) in
  snd outcome = later
  /\ (status <> "OK"%string \/ results = None ->
      fst outcome = Rejected ("Elevation request failed: " ++ status)%string)
  /\ (forall rs, status = "OK"%string -> results = Some rs ->
      fst outcome = Resolved rs).
Proof.
  cbn. repeat split.
  - intros [Hstatus | ->].
    + apply String.eqb_neq in Hstatus. now rewrite Hstatus.
    + now destruct (status =? "OK")%string.
  - intros rs -> ->. reflexivity.
Qed.

Lemma getElevationData_outcome_witness :
  getElevationData exampleLocations [deniedResponse; shortResponse]
  = (Rejected "Elevation request failed: REQUEST_DENIED"%string,
     [shortResponse]).
Proof.
  pose proof (getElevationData_outcome exampleLocations None
                "REQUEST_DENIED"%string [shortResponse]) as (Hrest & Hfail & _).
  apply injective_projections.
  - apply Hfail. left. discriminate.
  - exact Hrest.
Defined.

(** The claim C5 as written fails on a short result set: for two
    locations and a response of status ["OK"] with one result, the
    promise resolves. *)
Lemma getElevationData_accepts_short_result :
  exists rs,
    shortResponse = (Some rs, "OK"%string)
    /\ length rs <> length exampleLocations
    /\ fst (getElevationData exampleLocations [shortResponse]) = Resolved rs.
Proof.
  eexists. repeat split. cbn. lia.
Qed.

(** ** Steep-section alert *)

Lemma getTrafficInfo_steep_alert (routePoints : list RoutePoint) :
  In steepSectionsAlert (getTrafficInfo routePoints)
  <-> (5 < length (steepSections routePoints))%nat.
Proof.
  unfold getTrafficInfo.
  destruct (Nat.ltb_spec 5 (length (steepSections routePoints))) as [Hs | Hs];
    destruct (50 <? length routePoints)%nat; cbn; split; intro H;
    try lia; try tauto.
  - destruct H as [H | []]. discriminate H.
Qed.

(** C6, at a failing input.  On seven points that share one distance
    and alternate between two elevations, every segment has zero
    distance change; [calculateRouteStats] skips all six, but
    [getTrafficInfo] divides by that zero, gets [Infinity] for each of
    them, counts six steep sections and emits the caution. *)
Theorem getTrafficInfo_zero_distance_segments :
  everySegment stationary stackedRoute
  /\ maxGrade (calculateRouteStats stackedRoute) = 0
  /\ trafficGrade (mkRoutePoint 0 0 0 0) (mkRoutePoint 0 0 10 0) = PInf
  /\ length (steepSections stackedRoute) = 6%nat
  /\ getTrafficInfo stackedRoute = [steepSectionsAlert].
Proof.
  split; [| repeat split].
  apply segmentsFrom_every. cbn. unfold stationary. cbn.
  repeat split; reflexivity.
Qed.

(** * Further properties of the pipeline *)

(** ** Statistics Aggregator: elevation extremes, gain and loss *)

Lemma statsStep_elevations previous current acc :
  acc_maxElevation (statsStep previous current acc)
  = Qmax (acc_maxElevation acc) (elevation current)
  /\ acc_minElevation (statsStep previous current acc)
     = Qmin (acc_minElevation acc) (elevation current).
Proof.
  unfold statsStep.
  destruct (gtb (distance current - distance previous) 0); split; reflexivity.
Qed.

Lemma statsLoop_elevation_bounds rest : forall previous acc,
  (acc_maxElevation acc <= acc_maxElevation (statsLoop previous rest acc)
   /\ acc_minElevation (statsLoop previous rest acc) <= acc_minElevation acc)
  /\ forall p, In p rest ->
       acc_minElevation (statsLoop previous rest acc) <= elevation p
       /\ elevation p <= acc_maxElevation (statsLoop previous rest acc).
Proof.
  induction rest as [|current rest IH]; intros previous acc.
  - split; [split; apply Qle_refl | intros p []].
  - cbn [statsLoop].
    destruct (IH current (statsStep previous current acc)) as [[Hmax Hmin] Hin].
    destruct (statsStep_elevations previous current acc) as [Emax Emin].
    rewrite Emax in Hmax. rewrite Emin in Hmin.
    pose proof (Q.le_max_l (acc_maxElevation acc) (elevation current)).
    pose proof (Q.le_max_r (acc_maxElevation acc) (elevation current)).
    pose proof (Q.le_min_l (acc_minElevation acc) (elevation current)).
    pose proof (Q.le_min_r (acc_minElevation acc) (elevation current)).
    split; [split; lra |].
    intros p [<- | Hp]; [split; lra | now apply Hin].
Qed.

Lemma statsLoop_elevation_attained rest : forall previous acc,
  (acc_maxElevation (statsLoop previous rest acc) == acc_maxElevation acc
   \/ exists p, In p rest
        /\ acc_maxElevation (statsLoop previous rest acc) == elevation p)
  /\ (acc_minElevation (statsLoop previous rest acc) == acc_minElevation acc
      \/ exists p, In p rest
           /\ acc_minElevation (statsLoop previous rest acc) == elevation p).
Proof.
  induction rest as [|current rest IH]; intros previous acc.
  - split; left; reflexivity.
  - cbn [statsLoop].
    destruct (IH current (statsStep previous current acc)) as [Hmax Hmin].
    destruct (statsStep_elevations previous current acc) as [Emax Emin].
    rewrite Emax in Hmax. rewrite Emin in Hmin. split.
    + destruct Hmax as [Hmax | (p & Hp & Hmax)].
      * destruct (Q.max_spec (acc_maxElevation acc) (elevation current))
          as [[_ E] | [_ E]]; rewrite E in Hmax.
        -- right. exists current. split; [now left | exact Hmax].
        -- left. exact Hmax.
      * right. exists p. split; [now right | exact Hmax].
    + destruct Hmin as [Hmin | (p & Hp & Hmin)].
      * destruct (Q.min_spec (acc_minElevation acc) (elevation current))
          as [[_ E] | [_ E]]; rewrite E in Hmin.
        -- left. exact Hmin.
        -- right. exists current. split; [now left | exact Hmin].
      * right. exists p. split; [now right | exact Hmin].
Qed.

(** X1. On a non-empty point sequence [minElevation] and [maxElevation]
    bound the elevation of every point, and each is the elevation of
    one of the points. *)
Theorem elevation_extremes (first : RoutePoint) (rest : list RoutePoint) :
  let points := first :: rest in
  let stats := calculateRouteStats points in
  (forall p, In p points ->
     minElevation stats <= elevation p /\ elevation p <= maxElevation stats)
  /\ (exists p, In p points /\ maxElevation stats == elevation p)
  /\ (exists p, In p points /\ minElevation stats == elevation p).
Proof.
  cbn zeta. unfold calculateRouteStats. cbn [maxElevation minElevation].
  set (acc0 := mkStatsAcc 0 0 (elevation first) (elevation first) 0 0 0 0).
  destruct (statsLoop_elevation_bounds rest first acc0) as [[Hmax Hmin] Hin].
  destruct (statsLoop_elevation_attained rest first acc0) as [Amax Amin].
  cbn [acc0 acc_maxElevation acc_minElevation] in Hmax, Hmin, Amax, Amin.
  repeat split.
  - destruct H as [<- | Hp]; [exact Hmin | now apply Hin].
  - destruct H as [<- | Hp]; [exact Hmax | now apply Hin].
  - destruct Amax as [E | (p & Hp & E)].
    + exists first. split; [now left | exact E].
    + exists p. split; [now right | exact E].
  - destruct Amin as [E | (p & Hp & E)].
    + exists first. split; [now left | exact E].
    + exists p. split; [now right | exact E].
Qed.

Lemma statsStep_gain_loss previous current acc :
  (acc_elevationGain acc <= acc_elevationGain (statsStep previous current acc)
   /\ acc_elevationLoss acc <= acc_elevationLoss (statsStep previous current acc))
  /\ (climbs previous current ->
      acc_elevationLoss (statsStep previous current acc)
      == acc_elevationLoss acc)
  /\ (descends previous current ->
      acc_elevationGain (statsStep previous current acc)
      == acc_elevationGain acc).
Proof.
  unfold statsStep, climbs, descends.
  pose proof (Qabs_nonneg (elevation current - elevation previous)) as Habs.
  case_gtb (elevation current - elevation previous) 0;
    destruct (gtb (distance current - distance previous) 0); cbn;
    (split; [split | split; intro]);
    try rewrite (Qabs_neg _ Hcmp); lra.
Qed.

Lemma statsLoop_gain_loss rest : forall previous acc,
  (acc_elevationGain acc <= acc_elevationGain (statsLoop previous rest acc)
   /\ acc_elevationLoss acc <= acc_elevationLoss (statsLoop previous rest acc))
  /\ (segmentsFrom climbs previous rest ->
      acc_elevationLoss (statsLoop previous rest acc)
      == acc_elevationLoss acc)
  /\ (segmentsFrom descends previous rest ->
      acc_elevationGain (statsLoop previous rest acc)
      == acc_elevationGain acc).
Proof.
  induction rest as [|current rest IH]; intros previous acc.
  - cbn. split; [split | split; intro]; lra.
  - cbn [statsLoop segmentsFrom].
    destruct (IH current (statsStep previous current acc))
      as [[Hg Hl] [Hup Hdown]].
    destruct (statsStep_gain_loss previous current acc)
      as [[Hg' Hl'] [Hup' Hdown']].
    split; [split; lra | split].
    + intros [Hhead Htail]. rewrite (Hup Htail). now apply Hup'.
    + intros [Hhead Htail]. rewrite (Hdown Htail). now apply Hdown'.
Qed.

(** In the exact reading the gain of a route that never falls is the
    whole rise from the first to the last point, and the loss of a
    route that never rises is the whole drop.  (Sums of doubles round,
    so the code gives these totals up to rounding only.) *)
Lemma one_way_totals (first : RoutePoint) (rest : list RoutePoint) :
  let points := first :: rest in
  let stats := calculateRouteStats points in
  (everySegment climbs points ->
   totalElevationGain stats
   == elevation (last points first) - elevation first)
  /\ (everySegment descends points ->
      totalElevationLoss stats
      == elevation first - elevation (last points first)).
Proof.
  cbn zeta. unfold calculateRouteStats.
  cbn [totalElevationGain totalElevationLoss].
  set (acc0 := mkStatsAcc 0 0 (elevation first) (elevation first) 0 0 0 0).
  destruct (statsLoop_gain_loss rest first acc0) as [_ [Hup Hdown]].
  pose proof (statsLoop_balance rest first acc0) as Hbal.
  rewrite (last_cons rest first first).
  cbn [acc0 acc_elevationGain acc_elevationLoss] in *.
  split.
  - intro H. apply everySegment_from, Hup in H. lra.
  - intro H. apply everySegment_from, Hdown in H. lra.
Qed.

(** X2. Gain and loss are never negative.  On a route that never falls
    the loss is 0, and on a route that never rises the gain is 0: a
    segment adds to one of the two totals only, the gain when it rises
    and the loss otherwise. *)
Theorem gain_and_loss (first : RoutePoint) (rest : list RoutePoint) :
  let points := first :: rest in
  let stats := calculateRouteStats points in
  (0 <= totalElevationGain stats /\ 0 <= totalElevationLoss stats)
  /\ (everySegment climbs points -> totalElevationLoss stats == 0)
  /\ (everySegment descends points -> totalElevationGain stats == 0).
Proof.
  cbn zeta. unfold calculateRouteStats.
  cbn [totalElevationGain totalElevationLoss].
  set (acc0 := mkStatsAcc 0 0 (elevation first) (elevation first) 0 0 0 0).
  destruct (statsLoop_gain_loss rest first acc0) as [[Hg Hl] [Hup Hdown]].
  cbn [acc0 acc_elevationGain acc_elevationLoss] in *.
  split; [split; assumption | split].
  - intro H. apply everySegment_from, Hup in H. exact H.
  - intro H. apply everySegment_from, Hdown in H. exact H.
Qed.

Lemma gain_and_loss_witness :
  totalElevationLoss (calculateRouteStats uphillRoute) == 0
  /\ totalElevationGain (calculateRouteStats downhillRoute) == 0.
Proof.
  split.
  - apply (gain_and_loss (mkRoutePoint 0 0 100 0)
             [mkRoutePoint 0 (1 # 100) 250 1000;
              mkRoutePoint 0 (2 # 100) 300 2000]).
    apply segmentsFrom_every. cbn. unfold climbs. cbn. repeat split; lra.
  - apply (gain_and_loss (mkRoutePoint 0 0 300 0)
             [mkRoutePoint 0 (1 # 100) 250 1000;
              mkRoutePoint 0 (2 # 100) 100 2000]).
    apply segmentsFrom_every. cbn. unfold descends. cbn. repeat split; lra.
Defined.

(** ** Statistics Aggregator: the average grade *)

Lemma statsStep_gradeInvariant previous current acc :
  gradeInvariant acc -> gradeInvariant (statsStep previous current acc).
Proof.
  unfold gradeInvariant, statsStep. intros (Hmax & Hmin & Htot & Hsum).
  destruct (gtb (distance current - distance previous) 0);
    cbn [acc_maxGrade acc_minGrade acc_totalGrade acc_gradeCount];
    [| repeat split; assumption].
  set (grade := (elevation current - elevation previous)
                / (distance current - distance previous) * 100).
  set (n := inject_Z (Z.of_nat (acc_gradeCount acc))) in *.
  set (M := Qmax (acc_maxGrade acc) (- acc_minGrade acc)) in *.
  set (M' := Qmax (Qmax (acc_maxGrade acc) grade)
                  (- Qmin (acc_minGrade acc) grade)).
  pose proof (Q.le_max_l (acc_maxGrade acc) grade) as H1.
  pose proof (Q.le_max_r (acc_maxGrade acc) grade) as H2.
  pose proof (Q.le_min_l (acc_minGrade acc) grade) as H3.
  pose proof (Q.le_min_r (acc_minGrade acc) grade) as H4.
  pose proof (Q.le_max_l (Qmax (acc_maxGrade acc) grade)
                (- Qmin (acc_minGrade acc) grade)) as H5.
  pose proof (Q.le_max_r (Qmax (acc_maxGrade acc) grade)
                (- Qmin (acc_minGrade acc) grade)) as H6.
  fold M' in H5, H6.
  assert (HM : M <= M').
  { unfold M. apply Q.max_lub; lra. }
  assert (Habs : Qabs grade <= M').
  { apply Qabs_Qle_condition. split; lra. }
  assert (Hn : 0 <= n).
  { unfold n. change 0 with (inject_Z 0). rewrite <- Zle_Qle. lia. }
  assert (Hstep : inject_Z (Z.of_nat (S (acc_gradeCount acc))) == n + 1).
  { rewrite Nat2Z.inj_succ, <- Z.add_1_r, inject_Z_plus. reflexivity. }
  pose proof (Qmult_le_compat_r M M' n HM Hn) as Hmul.
  pose proof (Qabs_nonneg grade) as Hpos.
  split; [lra | split; [lra | split; [lra |]]].
  rewrite Hstep.
  setoid_replace (M' * (n + 1)) with (M' * n + M') by ring.
  lra.
Qed.

Lemma statsLoop_gradeInvariant rest : forall previous acc,
  gradeInvariant acc -> gradeInvariant (statsLoop previous rest acc).
Proof.
  induction rest as [|current rest IH]; intros previous acc Hacc.
  - exact Hacc.
  - cbn [statsLoop]. apply IH, statsStep_gradeInvariant, Hacc.
Qed.

(** In the exact reading the average grade, an average of absolute
    grades, lies between 0 and the larger of [maxGrade] and
    [-minGrade].  (In doubles the sum of the absolute grades rounds,
    and the quotient can end an ulp above that bound.) *)
Lemma averageGrade_exact_range (points : list RoutePoint) :
  let stats := calculateRouteStats points in
  0 <= averageGrade stats
  /\ averageGrade stats <= Qmax (maxGrade stats) (- minGrade stats).
Proof.
  cbn zeta. destruct points as [|first rest].
  - cbn. split; discriminate.
  - unfold calculateRouteStats. cbn [averageGrade maxGrade minGrade].
    set (acc0 := mkStatsAcc 0 0 (elevation first) (elevation first) 0 0 0 0).
    assert (H0 : gradeInvariant acc0).
    { unfold gradeInvariant, acc0. cbn. repeat split; discriminate. }
    destruct (statsLoop_gradeInvariant rest first acc0 H0)
      as (Hmax & Hmin & Htot & Hsum).
    set (acc := statsLoop first rest acc0) in *.
    pose proof (Q.le_max_l (acc_maxGrade acc) (- acc_minGrade acc)) as HM.
    destruct (Nat.ltb_spec 0 (acc_gradeCount acc)) as [Hpos | Hzero].
    + assert (Hn : 0 < inject_Z (Z.of_nat (acc_gradeCount acc))).
      { change 0 with (inject_Z 0). rewrite <- Zlt_Qlt. lia. }
      split.
      * apply Qle_shift_div_l; [exact Hn | lra].
      * apply Qle_shift_div_r; [exact Hn | exact Hsum].
    + split; lra.
Qed.

(** X3. The average grade is never negative, and it is 0 on a route
    whose grade extremes are both 0: every segment that covers ground
    is level there, so the absolute grades that are averaged are all
    0. *)
Theorem averageGrade_bounds (points : list RoutePoint) :
  let stats := calculateRouteStats points in
  0 <= averageGrade stats
  /\ (maxGrade stats == 0 -> minGrade stats == 0 ->
      averageGrade stats == 0).
Proof.
  cbn zeta.
  destruct (averageGrade_exact_range points) as [Hlow Hhigh].
  split; [exact Hlow |].
  intros Hmax Hmin. rewrite Hmax, Hmin in Hhigh.
  change (Qmax 0 (- 0)) with 0 in Hhigh. lra.
Qed.

Lemma averageGrade_bounds_witness :
  averageGrade (calculateRouteStats
                  [mkRoutePoint 0 0 100 0;
                   mkRoutePoint 0 (1 # 100) 100 1000;
                   mkRoutePoint 0 (2 # 100) 100 2000]) == 0.
Proof.
  apply (averageGrade_bounds [mkRoutePoint 0 0 100 0;
                              mkRoutePoint 0 (1 # 100) 100 1000;
                              mkRoutePoint 0 (2 # 100) 100 2000]);
    reflexivity.
Defined.

(** ** Elevation Enricher: what it carries over, and the totals *)

Section EnricherTotals.

Variable computeDistanceBetween : LatLng -> LatLng -> Q.
Hypothesis distance_nonneg : forall a b, 0 <= computeDistanceBetween a b.

Lemma createLoop_copies (rest : list ElevationResult) :
  forall prevPoint total,
    map copiedIn (createLoop computeDistanceBetween prevPoint total rest)
    = map copiedOf rest.
Proof.
  induction rest as [|result rest IH]; intros prevPoint total.
  - reflexivity.
  - cbn [createLoop map]. f_equal. apply IH.
Qed.

(** X4. [createRoutePoints] pairs positionally: point [i] carries the
    latitude, longitude and elevation of elevation result [i], so no
    result is dropped, repeated or reordered. *)
Theorem createRoutePoints_positional
  (elevationData : list ElevationResult) (fullPath : list LatLng) :
  map copiedIn (createRoutePoints computeDistanceBetween elevationData fullPath)
  = map copiedOf elevationData.
Proof.
  apply createLoop_copies.
Qed.

Lemma createLoop_last (rest : list ElevationResult) :
  forall prev total p,
    distance p == total ->
    distance (last (createLoop computeDistanceBetween (Some prev) total rest) p)
    == total
       + Qsum (segmentLengths computeDistanceBetween
                 (location prev :: map location rest)).
Proof.
  induction rest as [|result rest IH]; intros prev total p Hp.
  - cbn. rewrite Hp. lra.
  - cbn [createLoop].
    set (total' := total
                   + computeDistanceBetween (location prev) (location result)).
    set (q := mkRoutePoint _ _ _ total').
    rewrite last_cons.
    rewrite (IH result total' q (Qeq_refl total')). unfold total'.
    change (segmentLengths computeDistanceBetween
              (location prev :: map location (result :: rest)))
      with (computeDistanceBetween (location prev) (location result)
            :: segmentLengths computeDistanceBetween
                 (location result :: map location rest)).
    change (Qsum (?x :: ?l)) with (x + Qsum l).
    cbn [distance]. lra.
Qed.

Lemma Qsum_nonneg (l : list Q) : Forall (fun x => 0 <= x) l -> 0 <= Qsum l.
Proof.
  induction 1 as [|x l Hx Hl IH].
  - apply Qle_refl.
  - change (Qsum (x :: l)) with (x + Qsum l). lra.
Qed.

(** X5. Enrichment followed by aggregation: the [totalDistance] of the
    statistics is the sum of all great-circle segment lengths of the
    elevation results, and neither it nor the estimated time is
    negative. *)
Theorem enriched_route_totals
  (elevationData : list ElevationResult) (fullPath : list LatLng) :
  let points :=
    createRoutePoints computeDistanceBetween elevationData fullPath in
  let stats := calculateRouteStats points in
  totalDistance stats
  == Qsum (segmentLengths computeDistanceBetween (map location elevationData))
  /\ 0 <= totalDistance stats
  /\ 0 <= estimatedTime stats.
Proof.
  cbn zeta.
  assert (Hsegs : 0 <= Qsum (segmentLengths computeDistanceBetween
                               (map location elevationData))).
  { apply Qsum_nonneg, segmentLengths_nonneg, distance_nonneg. }
  destruct elevationData as [|first rest].
  - cbn. repeat split; discriminate.
  - unfold createRoutePoints. cbn [createLoop].
    set (p0 := mkRoutePoint _ _ _ 0).
    set (tail := createLoop computeDistanceBetween (Some first) 0 rest).
    unfold calculateRouteStats.
    cbn [totalDistance estimatedTime].
    set (acc0 := mkStatsAcc 0 0 (elevation p0) (elevation p0) 0 0 0 0).
    destruct (statsLoop_gain_loss tail p0 acc0) as [[Hgain _] _].
    cbn [acc0 acc_elevationGain] in Hgain.
    assert (Hlast : distance (last (p0 :: tail) p0)
                    == Qsum (segmentLengths computeDistanceBetween
                               (map location (first :: rest)))).
    { rewrite last_cons. unfold tail.
      rewrite (createLoop_last rest first 0 p0 (Qeq_refl _)).
      cbn [map]. lra. }
    rewrite Hlast. split; [reflexivity | split; [exact Hsegs |]].
    set (gain := acc_elevationGain (statsLoop p0 tail acc0)) in *.
    set (total := Qsum _) in *.
    unfold Qdiv.
    setoid_replace (total * / 1000 * 15 + gain * / 100 * 10)
      with (total * (15 # 1000) + gain * (10 # 100)) by field.
    lra.
Qed.

End EnricherTotals.

Lemma enriched_route_totals_witness :
  let points := createRoutePoints planarDistance exampleElevations examplePath in
  let stats := calculateRouteStats points in
  totalDistance stats
  == Qsum (segmentLengths planarDistance (map location exampleElevations))
  /\ 0 <= totalDistance stats
  /\ 0 <= estimatedTime stats.
Proof.
  apply (enriched_route_totals planarDistance planarDistance_nonneg
           exampleElevations examplePath).
Defined.

(** ** Safety score and difficulty *)

Lemma getSafetyScore_deductions (stats : RouteStats) :
  getSafetyScore stats
  = Z.max (100 - gradePenalty stats - gainPenalty stats
           - distancePenalty stats) 0.
Proof.
  unfold getSafetyScore, gradePenalty, gainPenalty, distancePenalty.
  destruct (gtb (maxGrade stats) 20), (gtb (maxGrade stats) 15),
    (gtb (maxGrade stats) 10), (gtb (totalElevationGain stats) 1000),
    (gtb (totalElevationGain stats) 500), (gtb (totalDistance stats) 20000),
    (gtb (totalDistance stats) 10000); reflexivity.
Qed.

Lemma penalty_ranges (stats : RouteStats) :
  (0 <= gradePenalty stats <= 20)%Z
  /\ (0 <= gainPenalty stats <= 15)%Z
  /\ (0 <= distancePenalty stats <= 10)%Z.
Proof.
  unfold gradePenalty, gainPenalty, distancePenalty.
  destruct (gtb (maxGrade stats) 20), (gtb (maxGrade stats) 15),
    (gtb (maxGrade stats) 10), (gtb (totalElevationGain stats) 1000),
    (gtb (totalElevationGain stats) 500), (gtb (totalDistance stats) 20000),
    (gtb (totalDistance stats) 10000); lia.
Qed.

(** X6. The safety score always lies between 55 and 100, so the clamp
    at 0 never takes effect, the badge colour is never the red class
    and the icon is the warning triangle only below 60. *)
Theorem getSafetyScore_range (stats : RouteStats) :
  (55 <= getSafetyScore stats <= 100)%Z
  /\ getSafetyScore stats
     = (100 - gradePenalty stats - gainPenalty stats
        - distancePenalty stats)%Z
  /\ getScoreColor (getSafetyScore stats) <> "text-red-600 bg-red-100"%string
  /\ (getScoreIcon (getSafetyScore stats) = AlertTriangleIcon
      <-> (getSafetyScore stats < 60)%Z).
Proof.
  rewrite getSafetyScore_deductions.
  destruct (penalty_ranges stats) as (Hg & He & Hd).
  set (score := (100 - gradePenalty stats - gainPenalty stats
                 - distancePenalty stats)%Z).
  assert (Hscore : (55 <= score <= 100)%Z) by (subst score; lia).
  rewrite Z.max_l by lia.
  split; [exact Hscore | split; [reflexivity | split]].
  - unfold getScoreColor.
    destruct (Z.leb_spec 80 score), (Z.leb_spec 60 score),
      (Z.leb_spec 40 score); try discriminate; lia.
  - unfold getScoreIcon.
    destruct (Z.leb_spec 80 score), (Z.leb_spec 60 score);
      split; intro Hicon; try discriminate; try reflexivity; lia.
Qed.

(** X7. The safety score is antitone: a route with no smaller
    [maxGrade], [totalElevationGain] and [totalDistance] never scores
    higher. *)
Theorem getSafetyScore_antitone (s1 s2 : RouteStats) :
  maxGrade s1 <= maxGrade s2 ->
  totalElevationGain s1 <= totalElevationGain s2 ->
  totalDistance s1 <= totalDistance s2 ->
  (getSafetyScore s2 <= getSafetyScore s1)%Z.
Proof.
  intros Hg He Hd. rewrite !getSafetyScore_deductions.
  assert (gradePenalty s1 <= gradePenalty s2)%Z.
  { unfold gradePenalty.
    case_gtb (maxGrade s1) 20; case_gtb (maxGrade s1) 15;
      case_gtb (maxGrade s1) 10; case_gtb (maxGrade s2) 20;
      case_gtb (maxGrade s2) 15; case_gtb (maxGrade s2) 10;
      first [lia | exfalso; lra]. }
  assert (gainPenalty s1 <= gainPenalty s2)%Z.
  { unfold gainPenalty.
    case_gtb (totalElevationGain s1) 1000; case_gtb (totalElevationGain s1) 500;
      case_gtb (totalElevationGain s2) 1000;
      case_gtb (totalElevationGain s2) 500;
      first [lia | exfalso; lra]. }
  assert (distancePenalty s1 <= distancePenalty s2)%Z.
  { unfold distancePenalty.
    case_gtb (totalDistance s1) 20000; case_gtb (totalDistance s1) 10000;
      case_gtb (totalDistance s2) 20000; case_gtb (totalDistance s2) 10000;
      first [lia | exfalso; lra]. }
  lia.
Qed.

Lemma getSafetyScore_antitone_witness :
  (getSafetyScore demandingStats <= getSafetyScore gentleStats)%Z.
Proof.
  apply (getSafetyScore_antitone gentleStats demandingStats); cbn; lra.
Defined.

Lemma gtb_comp (a a' b b' : Q) : a == a' -> b == b' -> gtb a b = gtb a' b'.
Proof.
  intros Ha Hb. unfold gtb. now rewrite Ha, Hb.
Qed.

(** The classifier's kilometres against the metres of the other
    thresholds. *)
Lemma gtb_kilometres (d t : Q) : gtb (d / 1000) t = gtb d (t * 1000).
Proof.
  unfold Qdiv. change (/ 1000) with (1 # 1000).
  case_gtb (d * (1 # 1000)) t; case_gtb d (t * 1000);
    first [reflexivity | exfalso; lra].
Qed.

Lemma calculateDifficulty_tier (stats : RouteStats) :
  let score := difficultyScore stats in
  (tier (calculateDifficulty stats) = 0%nat <-> (score <= 2)%Z)
  /\ (tier (calculateDifficulty stats) <= 1 <-> (score <= 4)%Z)%nat
  /\ (tier (calculateDifficulty stats) = 3%nat <-> (7 <= score)%Z).
Proof.
  cbn zeta. unfold calculateDifficulty.
  destruct (Z.leb_spec 7 (difficultyScore stats)),
    (Z.leb_spec 5 (difficultyScore stats)),
    (Z.leb_spec 3 (difficultyScore stats)); cbn; lia.
Qed.

Lemma grade_factor_penalty (stats : RouteStats) :
  let f := factor (Qabs (maxGrade stats)) 20 15 10 in
  let p := gradePenalty stats in
  ((p = 0 /\ 0 <= f <= 3) \/ (p = 10 /\ 1 <= f <= 3)
   \/ (p = 15 /\ 2 <= f <= 3) \/ (p = 20 /\ f = 3))%Z
  /\ (0 <= maxGrade stats ->
      ((p = 0 /\ f = 0) \/ (p = 10 /\ f = 1)
       \/ (p = 15 /\ f = 2) \/ (p = 20 /\ f = 3))%Z).
Proof.
  cbn zeta. unfold factor, gradePenalty.
  pose proof (Qle_Qabs (maxGrade stats)) as Habs.
  split.
  - case_gtb (maxGrade stats) 20; case_gtb (maxGrade stats) 15;
      case_gtb (maxGrade stats) 10; case_gtb (Qabs (maxGrade stats)) 20;
      case_gtb (Qabs (maxGrade stats)) 15;
      case_gtb (Qabs (maxGrade stats)) 10;
      first [lia | exfalso; lra].
  - intro Hpos. rewrite !(gtb_comp _ (maxGrade stats) _ _
                            (Qabs_pos _ Hpos) (Qeq_refl _)).
    destruct (gtb (maxGrade stats) 20), (gtb (maxGrade stats) 15),
      (gtb (maxGrade stats) 10); lia.
Qed.

Lemma gain_factor_penalty (stats : RouteStats) :
  let f := factor (totalElevationGain stats) 1000 500 200 in
  let p := gainPenalty stats in
  ((p = 0 /\ 0 <= f <= 1) \/ (p = 10 /\ f = 2) \/ (p = 15 /\ f = 3))%Z.
Proof.
  cbn zeta. unfold factor, gainPenalty.
  case_gtb (totalElevationGain stats) 1000;
    case_gtb (totalElevationGain stats) 500;
    case_gtb (totalElevationGain stats) 200;
    first [lia | exfalso; lra].
Qed.

Lemma distance_factor_penalty (stats : RouteStats) :
  let f := factor (totalDistance stats / 1000) 20 10 5 in
  let p := distancePenalty stats in
  ((p = 0 /\ 0 <= f <= 1) \/ (p = 5 /\ f = 2) \/ (p = 10 /\ f = 3))%Z.
Proof.
  cbn zeta. unfold factor, distancePenalty. rewrite !gtb_kilometres.
  change (20 * 1000) with 20000. change (10 * 1000) with 10000.
  destruct (gtb (totalDistance stats) 20000),
    (gtb (totalDistance stats) 10000), (gtb (totalDistance stats) (5 * 1000));
    lia.
Qed.

(** X8. The two ratings agree at the ends of the scale: a route the
    classifier calls [easy] has a safety score of at least 85 and the
    green badge; a route it calls [extreme], with a non-negative
    [maxGrade], has a safety score of at most 70. *)
Theorem difficulty_and_safety (stats : RouteStats) :
  (calculateDifficulty stats = easy ->
   (85 <= getSafetyScore stats)%Z
   /\ getScoreColor (getSafetyScore stats)
      = "text-green-600 bg-green-100"%string)
  /\ (0 <= maxGrade stats -> calculateDifficulty stats = extreme ->
      (getSafetyScore stats <= 70)%Z).
Proof.
  destruct (calculateDifficulty_tier stats) as (Heasy & _ & Hextreme).
  destruct (grade_factor_penalty stats) as [Hg Hg'].
  pose proof (gain_factor_penalty stats) as He.
  pose proof (distance_factor_penalty stats) as Hd.
  rewrite getSafetyScore_deductions. cbn zeta in *.
  unfold difficultyScore in Heasy, Hextreme.
  split.
  - intro H. rewrite H in Heasy.
    assert (Hscore : (85 <= Z.max (100 - gradePenalty stats - gainPenalty stats
                                   - distancePenalty stats) 0)%Z).
    { apply proj1 in Heasy. specialize (Heasy eq_refl). lia. }
    split; [exact Hscore |].
    unfold getScoreColor.
    destruct (Z.leb_spec 80 (Z.max (100 - gradePenalty stats
                                    - gainPenalty stats
                                    - distancePenalty stats) 0));
      [reflexivity | lia].
  - intros Hpos H. rewrite H in Hextreme.
    apply proj1 in Hextreme. specialize (Hextreme eq_refl).
    specialize (Hg' Hpos). lia.
Qed.

Lemma difficulty_and_safety_witness :
  (85 <= getSafetyScore gentleStats)%Z
  /\ (getSafetyScore demandingStats <= 70)%Z.
Proof.
  split.
  - apply (difficulty_and_safety gentleStats). reflexivity.
  - apply (difficulty_and_safety demandingStats); [cbn; lra | reflexivity].
Defined.

(** X9. One factor alone never lifts a route above [moderate]: when two
    of distance (at most 5 km), gain (at most 200 m) and absolute
    maximum grade (at most 10 percent) are below their first
    threshold, the difficulty is [easy] or [moderate] whatever the
    third. *)
Theorem single_factor_at_most_moderate (stats : RouteStats) :
  (totalElevationGain stats <= 200 /\ Qabs (maxGrade stats) <= 10
   \/ totalDistance stats <= 5000 /\ Qabs (maxGrade stats) <= 10
   \/ totalDistance stats <= 5000 /\ totalElevationGain stats <= 200) ->
  (tier (calculateDifficulty stats) <= 1)%nat.
Proof.
  intro H. apply (calculateDifficulty_tier stats). unfold difficultyScore.
  pose proof (factor_range (totalDistance stats / 1000) 20 10 5) as Rd.
  pose proof (factor_range (totalElevationGain stats) 1000 500 200) as Re.
  pose proof (factor_range (Qabs (maxGrade stats)) 20 15 10) as Rg.
  assert (Zd : totalDistance stats <= 5000 ->
               factor (totalDistance stats / 1000) 20 10 5 = 0%Z).
  { intro Hle. unfold factor. rewrite !gtb_kilometres.
    case_gtb (totalDistance stats) (20 * 1000);
      case_gtb (totalDistance stats) (10 * 1000);
      case_gtb (totalDistance stats) (5 * 1000);
      first [reflexivity | exfalso; lra]. }
  assert (Ze : totalElevationGain stats <= 200 ->
               factor (totalElevationGain stats) 1000 500 200 = 0%Z).
  { intro Hle. unfold factor.
    case_gtb (totalElevationGain stats) 1000;
      case_gtb (totalElevationGain stats) 500;
      case_gtb (totalElevationGain stats) 200;
      first [reflexivity | exfalso; lra]. }
  assert (Zg : Qabs (maxGrade stats) <= 10 ->
               factor (Qabs (maxGrade stats)) 20 15 10 = 0%Z).
  { intro Hle. unfold factor.
    case_gtb (Qabs (maxGrade stats)) 20; case_gtb (Qabs (maxGrade stats)) 15;
      case_gtb (Qabs (maxGrade stats)) 10;
      first [reflexivity | exfalso; lra]. }
  destruct H as [[H1 H2] | [[H1 H2] | [H1 H2]]];
    [rewrite (Ze H1), (Zg H2) | rewrite (Zd H1), (Zg H2)
     | rewrite (Zd H1), (Ze H2)]; lia.
Qed.

Lemma single_factor_at_most_moderate_witness :
  (tier (calculateDifficulty (mkRouteStats 90000 150 150 20 0 4 (-4) 2 1365))
   <= 1)%nat.
Proof.
  apply single_factor_at_most_moderate. left. cbn. split; lra.
Defined.

(** ** Terrain alerts of the safety panel *)

(** X10. The panel pushes at most three terrain alerts and never both
    steepness alerts; it pushes one exactly when [maxGrade] exceeds 15,
    the gain exceeds 1000 or the distance exceeds 20000, and then the
    safety score is at most 90. *)
Theorem terrainAlerts_and_score (stats : RouteStats) :
  (length (terrainAlerts stats) <= 3)%nat
  /\ ~ (In "Extremely steep sections detected - use caution"%string
          (terrainAlerts stats)
        /\ In "Very steep sections ahead - prepare for challenging terrain"%string
             (terrainAlerts stats))
  /\ (terrainAlerts stats <> []
      <-> 15 < maxGrade stats \/ 1000 < totalElevationGain stats
          \/ 20000 < totalDistance stats)
  /\ (terrainAlerts stats <> [] -> (getSafetyScore stats <= 90)%Z).
Proof.
  rewrite getSafetyScore_deductions.
  unfold terrainAlerts, pushIf, gradePenalty, gainPenalty, distancePenalty.
  case_gtb (maxGrade stats) 20; case_gtb (maxGrade stats) 15;
    case_gtb (maxGrade stats) 10;
    case_gtb (totalElevationGain stats) 1000;
    case_gtb (totalElevationGain stats) 500;
    case_gtb (totalDistance stats) 20000;
    case_gtb (totalDistance stats) 10000;
    try (exfalso; lra); cbn [app length].
  all: split; [lia |].
  all: split; [intros [Ha Hb]; cbn in Ha, Hb; intuition discriminate |].
  all: split;
    [split;
     [intro Hne; first [lra | exfalso; apply Hne; reflexivity]
     | intro Hc; first [discriminate | exfalso; lra]]
    | intro Hne; first [lia | exfalso; apply Hne; reflexivity]].
Qed.

(** ** Hiking classifier *)

Lemma calculateRouteStats_maxGrade_nonneg (points : list RoutePoint) :
  0 <= maxGrade (calculateRouteStats points).
Proof.
  destruct points as [|first rest].
  - cbn. discriminate.
  - unfold calculateRouteStats. cbn [maxGrade].
    apply (statsLoop_extremes rest first
             (mkStatsAcc 0 0 (elevation first) (elevation first) 0 0 0 0)).
Qed.

Lemma factor_bounds (x t3 t2 t1 : Q) :
  (x <= t3 -> (factor x t3 t2 t1 <= 2)%Z)
  /\ (x <= t3 -> x <= t2 -> (factor x t3 t2 t1 <= 1)%Z)
  /\ (x <= t3 -> x <= t2 -> x <= t1 -> factor x t3 t2 t1 = 0%Z).
Proof.
  unfold factor.
  case_gtb x t3; case_gtb x t2; case_gtb x t1;
    (split; [| split]); intros; first [lia | reflexivity | exfalso; lra].
Qed.

Lemma kilometres_le (d t : Q) : d <= t * 1000 -> d / 1000 <= t.
Proof.
  unfold Qdiv. change (/ 1000) with (1 # 1000). lra.
Qed.

(** What the two lower rungs of the hiking classifier say about the
    statistics. *)
Lemma hiking_rung_bounds (routePoints : list RoutePoint) :
  let stats := calculateRouteStats routePoints in
  let hiking := calculateHikingDifficulty routePoints in
  ((hikingTier hiking <= 1)%nat ->
   totalDistance stats <= 10000 /\ totalElevationGain stats <= 500
   /\ Qabs (maxGrade stats) <= 20)
  /\ (hiking = beginner ->
      totalDistance stats <= 5000 /\ totalElevationGain stats <= 300
      /\ Qabs (maxGrade stats) <= 15).
Proof.
  cbn zeta. unfold calculateHikingDifficulty.
  set (stats := calculateRouteStats routePoints). clearbody stats.
  rewrite !gtb_kilometres.
  case_gtb (totalDistance stats) (15 * 1000);
    case_gtb (totalElevationGain stats) 800;
    case_gtb (Qabs (maxGrade stats)) 25;
    case_gtb (totalDistance stats) (10 * 1000);
    case_gtb (totalElevationGain stats) 500;
    case_gtb (Qabs (maxGrade stats)) 20;
    case_gtb (totalDistance stats) (5 * 1000);
    case_gtb (totalElevationGain stats) 300;
    case_gtb (Qabs (maxGrade stats)) 15;
    cbn [orb hikingTier]; split; intro Hh;
    first [discriminate Hh | exfalso; lia | split; [| split]; lra].
Qed.

(** X11. The hiking classifier and the general classifier agree on the
    same points: [beginner] implies [easy], and [hard] or [extreme]
    implies [advanced] or [expert]. *)
Theorem hiking_and_general_difficulty (routePoints : list RoutePoint) :
  let general := calculateDifficulty (calculateRouteStats routePoints) in
  let hiking := calculateHikingDifficulty routePoints in
  (hiking = beginner -> general = easy)
  /\ ((2 <= tier general)%nat -> (2 <= hikingTier hiking)%nat).
Proof.
  cbn zeta.
  destruct (hiking_rung_bounds routePoints) as [Hlow Hbeginner].
  cbn zeta in Hlow, Hbeginner.
  set (hiking := calculateHikingDifficulty routePoints) in *.
  set (stats := calculateRouteStats routePoints) in *.
  destruct (calculateDifficulty_tier stats) as (Heasy & Hmoderate & _).
  cbn zeta in Heasy, Hmoderate. unfold difficultyScore in Heasy, Hmoderate.
  destruct (factor_bounds (totalDistance stats / 1000) 20 10 5)
    as (_ & Hd1 & Hd0).
  destruct (factor_bounds (totalElevationGain stats) 1000 500 200)
    as (_ & He1 & _).
  destruct (factor_bounds (Qabs (maxGrade stats)) 20 15 10)
    as (Hg2 & Hg1 & _).
  split.
  - intro Hb. destruct (Hbeginner Hb) as (Bd & Be & Bg).
    assert (Hzero : tier (calculateDifficulty stats) = 0%nat).
    { apply Heasy.
      rewrite Hd0 by (try apply kilometres_le; lra).
      specialize (He1 ltac:(lra) ltac:(lra)).
      specialize (Hg1 ltac:(lra) ltac:(lra)). lia. }
    destruct (calculateDifficulty stats); (reflexivity || discriminate Hzero).
  - intro Hhard.
    destruct (Nat.le_gt_cases 2 (hikingTier hiking)) as [Hok | Hlt];
      [exact Hok | exfalso].
    destruct (Hlow ltac:(lia)) as (Bd & Be & Bg).
    assert (Hle : (tier (calculateDifficulty stats) <= 1)%nat).
    { apply Hmoderate.
      specialize (Hd1 ltac:(apply kilometres_le; lra)
                      ltac:(apply kilometres_le; lra)).
      specialize (He1 ltac:(lra) ltac:(lra)).
      specialize (Hg2 ltac:(lra)). lia. }
    lia.
Qed.

Lemma hiking_and_general_difficulty_witness :
  calculateDifficulty (calculateRouteStats standingRoute) = easy.
Proof.
  apply (hiking_and_general_difficulty standingRoute). reflexivity.
Defined.

(** X12. [analyzeHikingTerrain] returns between one and four tags; the
    default tag is returned exactly when no threshold is exceeded; and
    one of the tags for steep climbs, long distance or significant
    gain is present exactly when the hiking difficulty of the same
    points is [advanced] or [expert]. *)
Theorem analyzeHikingTerrain_tags (routePoints : list RoutePoint) :
  let stats := calculateRouteStats routePoints in
  let tags := analyzeHikingTerrain routePoints in
  (1 <= length tags <= 4)%nat
  /\ (tags = ["Moderate terrain"%string]
      <-> maxElevation stats <= 2000 /\ maxGrade stats <= 20
          /\ totalDistance stats <= 10000
          /\ totalElevationGain stats <= 500)
  /\ (In "Steep climbs"%string tags \/ In "Long distance"%string tags
      \/ In "Significant elevation gain"%string tags
      <-> (2 <= hikingTier (calculateHikingDifficulty routePoints))%nat).
Proof.
  cbn zeta. unfold analyzeHikingTerrain, calculateHikingDifficulty, pushIf.
  pose proof (calculateRouteStats_maxGrade_nonneg routePoints) as Hpos.
  set (stats := calculateRouteStats routePoints) in *. clearbody stats.
  rewrite !gtb_kilometres.
  rewrite !(gtb_comp _ (maxGrade stats) _ _ (Qabs_pos _ Hpos) (Qeq_refl _)).
  change (10 * 1000) with 10000.
  case_gtb (maxElevation stats) 2000; case_gtb (maxGrade stats) 20;
    case_gtb (totalDistance stats) 10000;
    case_gtb (totalElevationGain stats) 500;
    case_gtb (totalDistance stats) (15 * 1000);
    case_gtb (totalElevationGain stats) 800;
    case_gtb (maxGrade stats) 25;
    try (exfalso; lra); cbn [orb app length Nat.ltb Nat.leb].
  all: try match goal with
           | |- context [if ?b then intermediate else beginner] => destruct b
           end.
  all: cbn [hikingTier].
  all: split; [lia |].
  all: split;
    [split;
     [intro Htag; first [discriminate Htag | repeat split; lra]
     | intros (H1 & H2 & H3 & H4); first [reflexivity | exfalso; lra]]
    | split;
      [intro Hin; first [lia | exfalso; cbn in Hin; intuition discriminate]
      | intro Htier; first [exfalso; lia | cbn; intuition]]].
Qed.

(** ** Path Sampler: order, and the degenerate targets *)

Lemma increasing_map_seq (f : nat -> nat) (n : nat) : forall s,
  (forall i, (s <= i)%nat -> (S i < s + n)%nat -> (f i < f (S i))%nat) ->
  increasing (map f (seq s n)).
Proof.
  induction n as [|n IH]; intros s Hstep.
  - exact I.
  - destruct n as [|n].
    + exact I.
    + change (increasing (f s :: map f (seq (S s) (S n)))).
      change (map f (seq (S s) (S n)))
        with (f (S s) :: map f (seq (S (S s)) n)).
      split.
      * apply Hstep; lia.
      * change (increasing (map f (seq (S s) (S n)))).
        apply IH. intros i H1 H2. apply Hstep; lia.
Qed.

Section SamplerOrder.

Variables L N : nat.
Hypothesis N_ge_2 : (2 <= N)%nat.
Hypothesis N_lt_L : (N < L)%nat.

(** Consecutive samples are read at least one index apart. *)
Lemma nearestIndex_step (i : nat) :
  (S i < N)%nat -> (nearestIndex L N i < nearestIndex L N (S i))%nat.
Proof.
  intro Hi.
  assert (HL : (1 <= L)%nat) by lia.
  destruct (nearestIndex_floor L N N_ge_2 HL i ltac:(lia)) as [[Hk0 _] ->].
  destruct (nearestIndex_floor L N N_ge_2 HL (S i) Hi) as [[Hk1 _] ->].
  set (a := inject_Z (Z.of_nat L - 1)) in *.
  set (b := inject_Z (Z.of_nat N - 1)) in *.
  set (x := inject_Z (Z.of_nat i) * a / b) in *.
  assert (Hb : 0 < b).
  { unfold b. change 0 with (inject_Z 0). rewrite <- Zlt_Qlt. lia. }
  assert (Hratio : 1 <= a / b).
  { apply Qle_shift_div_l; [exact Hb |].
    unfold a, b. rewrite Qmult_1_l, <- Zle_Qle. lia. }
  assert (Hnext : inject_Z (Z.of_nat (S i)) * a / b == x + a / b).
  { unfold x. rewrite Nat2Z.inj_succ, <- Z.add_1_r, inject_Z_plus.
    field. intro E. rewrite E in Hb. lra. }
  rewrite Hnext in *.
  assert (Hfloor : (Qfloor (x + (1 # 2)) + 1
                    <= Qfloor (x + a / b + (1 # 2)))%Z).
  { rewrite <- (Qfloor_Z (Qfloor (x + (1 # 2)) + 1)).
    apply Qfloor_resp_le. rewrite inject_Z_plus.
    pose proof (Qfloor_le (x + (1 # 2))). change (inject_Z 1) with 1. lra. }
  lia.
Qed.

Lemma nearestIndex_increasing :
  increasing (map (nearestIndex L N) (seq 0 N)).
Proof.
  apply increasing_map_seq. intros i _ Hi. apply nearestIndex_step. lia.
Qed.

End SamplerOrder.

(** X13. For a target [N >= 2] below the path length, the samples are
    the path read at [N] strictly increasing indices, all inside the
    path: an ordered selection that repeats no position and reads no
    [undefined]. *)
Theorem sampleRoutePoints_ordered {A : Type} (path : list A) (N : nat) :
  (2 <= N)%nat -> (N < length path)%nat ->
  exists indices,
    length indices = N
    /\ increasing indices
    /\ Forall (fun k => (k < length path)%nat) indices
    /\ sampleRoutePoints path N = map (nth_error path) indices.
Proof.
  intros HN HL.
  exists (map (nearestIndex (length path) N) (seq 0 N)).
  split; [now rewrite length_map, length_seq | split; [| split]].
  - now apply nearestIndex_increasing.
  - apply Forall_forall. intros k Hk. apply in_map_iff in Hk.
    destruct Hk as (i & <- & Hi). apply in_seq in Hi.
    apply nearestIndex_in_range; lia.
  - unfold sampleRoutePoints.
    destruct (Nat.leb_spec (length path) N) as [Hle | _]; [lia |].
    rewrite (sampleLoop_entries (length path) N) by lia.
    now rewrite map_map.
Qed.

Lemma sampleRoutePoints_ordered_witness :
  exists indices,
    length indices = 3%nat
    /\ increasing indices
    /\ Forall (fun k => (k < length examplePath)%nat) indices
    /\ sampleRoutePoints examplePath 3 = map (nth_error examplePath) indices.
Proof.
  apply (sampleRoutePoints_ordered examplePath 3); cbn; lia.
Defined.

(** X14. The degenerate targets.  With a target of 1 a path of two or
    more coordinates yields the single entry [undefined]; with a target
    of 0 a non-empty path yields no entry at all. *)
Theorem sampleRoutePoints_degenerate {A : Type} (path : list A) :
  ((1 < length path)%nat -> sampleRoutePoints path 1 = [None])
  /\ ((0 < length path)%nat -> sampleRoutePoints path 0 = []).
Proof.
  unfold sampleRoutePoints. split; intro HL.
  - destruct (Nat.leb_spec (length path) 1) as [Hle | _]; [lia |].
    cbn [sampleLoop]. f_equal.
    assert (Hdiv : div (inject_Z (Z.of_nat (length path) - 1))
                       (inject_Z (Z.of_nat 1 - 1)) = PInf).
    { unfold div. change (Qeq_bool (inject_Z (Z.of_nat 1 - 1)) 0) with true.
      assert (Hpos : 0 < inject_Z (Z.of_nat (length path) - 1)).
      { change 0 with (inject_Z 0). rewrite <- Zlt_Qlt. lia. }
      destruct (Qeq_bool _ 0) eqn:E.
      - apply Qeq_bool_eq in E. rewrite E in Hpos. lra.
      - apply gtb_true in Hpos. now rewrite Hpos. }
    rewrite Hdiv. reflexivity.
  - destruct (Nat.leb_spec (length path) 0) as [Hle | _]; [lia |].
    reflexivity.
Qed.

Lemma sampleRoutePoints_degenerate_witness :
  sampleRoutePoints examplePath 1 = [None]
  /\ sampleRoutePoints examplePath 0 = [].
Proof.
  split; apply (sampleRoutePoints_degenerate examplePath); cbn; lia.
Defined.

(** ** Steep sections *)

Lemma steepFrom_length (rest : list RoutePoint) : forall prevPoint,
  (length (steepFrom prevPoint rest) <= length rest)%nat.
Proof.
  induction rest as [|point rest IH]; intro prevPoint.
  - apply Nat.le_refl.
  - cbn [steepFrom]. specialize (IH point).
    destruct (isSteep prevPoint point); cbn [length]; lia.
Qed.

(** X15. There is at most one steep section per segment, so a route of
    six points or fewer never raises an alert of [getTrafficInfo]. *)
Theorem getTrafficInfo_short_route (routePoints : list RoutePoint) :
  (length (steepSections routePoints) <= length routePoints - 1)%nat
  /\ ((length routePoints <= 6)%nat -> getTrafficInfo routePoints = []).
Proof.
  assert (Hsteep : (length (steepSections routePoints)
                    <= length routePoints - 1)%nat).
  { destruct routePoints as [|first rest]; [apply Nat.le_refl |].
    cbn [steepSections length]. rewrite Nat.sub_1_r. cbn [Nat.pred].
    apply steepFrom_length. }
  split; [exact Hsteep |].
  intro Hshort. unfold getTrafficInfo.
  destruct (Nat.ltb_spec 50 (length routePoints)); [lia |].
  destruct (Nat.ltb_spec 5 (length (steepSections routePoints))); [lia |].
  reflexivity.
Qed.

Lemma getTrafficInfo_short_route_witness :
  getTrafficInfo downhillRoute = [].
Proof.
  apply (getTrafficInfo_short_route downhillRoute). cbn. lia.
Defined.

(** On a segment that covers ground the unguarded division is exact,
    and the segment is steep when its absolute grade exceeds 15. *)
Lemma isSteep_moving (prevPoint point : RoutePoint) :
  moving prevPoint point ->
  isSteep prevPoint point
  = gtb (Qabs ((elevation point - elevation prevPoint)
               / (distance point - distance prevPoint) * 100)) 15.
Proof.
  unfold moving. intro Hmove.
  assert (Hpos : gtb (distance point - distance prevPoint) 0 = true)
    by (apply gtb_true; lra).
  unfold isSteep, trafficGrade.
  now rewrite (guarded_division_finite _ _ Hpos).
Qed.

Lemma statsStep_moving (previous current : RoutePoint) (acc : StatsAcc) :
  moving previous current ->
  let acc' := statsStep previous current acc in
  (15 < acc_maxGrade acc' \/ acc_minGrade acc' < - (15)
   <-> (15 < acc_maxGrade acc \/ acc_minGrade acc < - (15))
       \/ isSteep previous current = true).
Proof.
  intro Hmove. cbn zeta. rewrite (isSteep_moving _ _ Hmove).
  unfold moving in Hmove. unfold statsStep.
  assert (Hpos : gtb (distance current - distance previous) 0 = true)
    by (apply gtb_true; lra).
  rewrite Hpos. cbn [acc_maxGrade acc_minGrade].
  set (grade := (elevation current - elevation previous)
                / (distance current - distance previous) * 100).
  rewrite gtb_true.
  destruct (Q.max_spec (acc_maxGrade acc) grade) as [[H1 E1] | [H1 E1]];
    destruct (Q.min_spec (acc_minGrade acc) grade) as [[H2 E2] | [H2 E2]];
    rewrite E1, E2;
    (destruct (Qlt_le_dec grade 0) as [H3 | H3];
     [rewrite (Qabs_neg grade) by lra | rewrite (Qabs_pos grade) by lra]);
    split; intro H; lra.
Qed.

Lemma statsLoop_moving (rest : list RoutePoint) : forall previous acc,
  segmentsFrom moving previous rest ->
  let acc' := statsLoop previous rest acc in
  (15 < acc_maxGrade acc' \/ acc_minGrade acc' < - (15)
   <-> (15 < acc_maxGrade acc \/ acc_minGrade acc < - (15))
       \/ steepFrom previous rest <> []).
Proof.
  induction rest as [|current rest IH]; intros previous acc Hseg; cbn zeta.
  - cbn [statsLoop steepFrom].
    split; [intro H; left; exact H | intros [H | H]; [exact H |]].
    now contradiction H.
  - destruct Hseg as [Hhead Htail]. cbn [statsLoop steepFrom].
    rewrite (IH current (statsStep previous current acc) Htail).
    rewrite (statsStep_moving previous current acc Hhead).
    destruct (isSteep previous current).
    + split; intros _; [right; discriminate | left; right; reflexivity].
    + split.
      * intros [[H | H] | H]; [left; exact H | discriminate H | right; exact H].
      * intros [H | H]; [left; left; exact H | right; exact H].
Qed.

(** X16. On a route whose cumulative distance strictly increases, the
    alert detector and the statistics agree: [getTrafficInfo] finds a
    steep section exactly when [maxGrade] is above 15 or [minGrade] is
    below -15. *)
Theorem steep_sections_and_grade_extremes
  (first : RoutePoint) (rest : list RoutePoint) :
  let points := first :: rest in
  let stats := calculateRouteStats points in
  everySegment moving points ->
  (steepSections points <> []
   <-> 15 < maxGrade stats \/ minGrade stats < - (15)).
Proof.
  cbn zeta. intro Hmove. apply everySegment_from in Hmove.
  unfold calculateRouteStats. cbn [maxGrade minGrade steepSections].
  rewrite (statsLoop_moving rest first _ Hmove).
  cbn [acc_maxGrade acc_minGrade].
  split; [intro H; right; exact H | intros [[H | H] | H]];
    [exfalso; lra | exfalso; lra | exact H].
Qed.

Lemma steep_sections_and_grade_extremes_witness :
  steepSections downhillRoute <> []
  <-> 15 < maxGrade (calculateRouteStats downhillRoute)
      \/ minGrade (calculateRouteStats downhillRoute) < - (15).
Proof.
  apply (steep_sections_and_grade_extremes (mkRoutePoint 0 0 300 0)
           [mkRoutePoint 0 (1 # 100) 250 1000;
            mkRoutePoint 0 (2 # 100) 100 2000]).
  apply segmentsFrom_every. cbn. unfold moving. cbn. repeat split; lra.
Defined.

(** ** The route pipelines *)

Section ServiceProofs.

Variable ELEVATION_SAMPLE_POINTS : nat.
Variable computeDistanceBetween : LatLng -> LatLng -> Q.

Let analyse := analyseRoute ELEVATION_SAMPLE_POINTS computeDistanceBetween.

(** A [RouteData] whose statistics are those of its points. *)
Let consistent (routeData : RouteData) : Prop :=
  stats routeData = calculateRouteStats (points routeData).

Lemma analyseRoute_resolved route stops w routeData w' :
  analyse route stops w = (Resolved routeData, w') ->
  consistent routeData
  /\ waypoints routeData = stops
  /\ (exists elevationData,
        points routeData
        = createRoutePoints computeDistanceBetween elevationData
                            (overview_path route))
  /\ directionsScript w' = directionsScript w
  /\ exists response, elevationScript w = response :: elevationScript w'.
Proof.
  unfold analyse, analyseRoute, await, awaitElevationData, getElevationData,
    resolve, consistent.
  destruct (elevationScript w) as [|[results status] later] eqn:E;
    [discriminate |].
  destruct (status =? "OK")%string; [| discriminate].
  destruct results as [rs|]; [| discriminate].
  intros [= <- <-]. cbn.
  repeat split; try reflexivity; eauto.
Qed.

Lemma analyseRoute_keeps_directions route stops w :
  directionsScript (snd (analyse route stops w)) = directionsScript w.
Proof.
  unfold analyse, analyseRoute, await, awaitElevationData, getElevationData,
    resolve.
  destruct (elevationScript w) as [|[results status] later];
    [reflexivity |].
  destruct (status =? "OK")%string; [| reflexivity].
  destruct results; reflexivity.
Qed.

Lemma settleDirections_cases failure w :
  match settleDirections failure w with
  | (Resolved r, w') =>
      exists later, directionsScript w = (Some r, "OK"%string) :: later
                    /\ w' = mkWorld (placesService w) later
                                    (elevationScript w) (placesScript w)
  | (Rejected message, w') =>
      exists result status later,
        directionsScript w = (result, status) :: later
        /\ (status <> "OK"%string \/ result = None)
        /\ message = (failure ++ status)%string
        /\ elevationScript w' = elevationScript w
  | (Pending, w') => directionsScript w = [] /\ w' = w
  end.
Proof.
  unfold settleDirections.
  destruct (directionsScript w) as [|[result status] later];
    [split; reflexivity |].
  destruct (String.eqb_spec status "OK") as [-> | Hne].
  - destruct result as [r|].
    + exists later. split; reflexivity.
    + exists None, "OK"%string, later. repeat split. now right.
  - exists result, status, later. repeat split. now left.
Qed.

(** X17. [calculateRoute] hides every cause of failure: whenever it
    rejects, the message is the generic one.  It does reject, without
    asking for elevations, when the directions status is not ["OK"],
    when the result is [null], and when the result has no route. *)
Theorem calculateRoute_failure
  (start finish : LocationData) (travelMode : TravelMode)
  (stops : option (list LocationData)) (w : World) :
  let run :=
    calculateRoute ELEVATION_SAMPLE_POINTS computeDistanceBetween
                   start finish travelMode stops w in
  (forall message, fst run = Rejected message ->
                   message = calculateRouteFailure)
  /\ (forall result status later,
        directionsScript w = (result, status) :: later ->
        status <> "OK"%string \/ result = None
        \/ (exists r, result = Some r /\ routes r = []) ->
        fst run = Rejected calculateRouteFailure
        /\ elevationScript (snd run) = elevationScript w).
Proof.
  cbn zeta. unfold calculateRoute, tryCatch, await, getDirections. split.
  - intros message.
    destruct (settleDirections _ w) as [[r | m |] w1].
    + destruct (routes r) as [|route others].
      * cbn. now intros [= <-].
      * fold analyse.
        destruct (analyse route stops w1) as [[rd | m |] w2]; cbn;
          first [discriminate | now intros [= <-]].
    + cbn. now intros [= <-].
    + discriminate.
  - intros result status later Hscript Hbad.
    unfold settleDirections. rewrite Hscript.
    destruct (String.eqb_spec status "OK") as [-> | Hne].
    + destruct Hbad as [Hbad | [-> | (r & -> & Hr)]].
      * now contradiction Hbad.
      * split; reflexivity.
      * rewrite Hr. split; reflexivity.
    + split; reflexivity.
Qed.

(** X18. Whenever [calculateRoute] resolves, the statistics it returns
    are those of the points it returns, the waypoints are the ones it
    was given, and it has used exactly one response of each of the two
    providers it asks, both ["OK"]: a directions result with at least
    one route, and an elevation response.  The points are read off the
    elevation response alone, one per result and in its order; the
    path of the route decides what is asked of the provider, and
    nothing of it reaches the points except through the answer
    ([createRoutePoints] gives the same points for every [fullPath]). *)
Theorem calculateRoute_resolved
  (start finish : LocationData) (travelMode : TravelMode)
  (stops : option (list LocationData)) (w w' : World) (routeData : RouteData) :
  calculateRoute ELEVATION_SAMPLE_POINTS computeDistanceBetween
                 start finish travelMode stops w
  = (Resolved routeData, w') ->
  stats routeData = calculateRouteStats (points routeData)
  /\ waypoints routeData = stops
  /\ (exists directionsResult elevationData,
        directionsScript w
        = (Some directionsResult, "OK"%string) :: directionsScript w'
        /\ routes directionsResult <> []
        /\ elevationScript w
           = (Some elevationData, "OK"%string) :: elevationScript w'
        /\ length (points routeData) = length elevationData
        /\ forall fullPath,
             points routeData
             = createRoutePoints computeDistanceBetween elevationData
                                 fullPath)
  /\ placesScript w' = placesScript w.
Proof.
  unfold calculateRoute, tryCatch, await, getDirections.
  pose proof (settleDirections_cases "Directions request failed: " w) as Hd.
  destruct (settleDirections _ w) as [[r | m |] w1]; try discriminate.
  destruct Hd as (later & Hscript & ->).
  destruct (routes r) as [|route others] eqn:Hroutes; [discriminate |].
  unfold analyseRoute, await, awaitElevationData, getElevationData, resolve.
  cbn [elevationScript placesService directionsScript placesScript].
  destruct (elevationScript w) as [|[results status] el]; [discriminate |].
  destruct (String.eqb_spec status "OK") as [-> | Hne]; [| discriminate].
  destruct results as [rs|]; [| discriminate].
  intros [= <- <-]. cbn.
  split; [reflexivity | split; [reflexivity | split; [| reflexivity]]].
  exists r, rs. rewrite Hscript, Hroutes.
  split; [reflexivity | split; [discriminate | split; [reflexivity |]]].
  split; [| reflexivity].
  unfold createRoutePoints. apply createLoop_length.
Qed.

Lemma analyseRoutes_resolved (todo : list DirectionsRoute) :
  forall alternatives w found w',
    analyseRoutes ELEVATION_SAMPLE_POINTS computeDistanceBetween
                  todo alternatives w = (Resolved found, w') ->
    length found = (length alternatives + length todo)%nat
    /\ (Forall consistent alternatives -> Forall consistent found)
    /\ length (elevationScript w)
       = (length (elevationScript w') + length todo)%nat.
Proof.
  induction todo as [|route todo IH]; intros alternatives w found w'.
  - cbn. intros [= <- <-]. repeat split; [lia | auto | lia].
  - cbn [analyseRoutes]. unfold await at 1. fold analyse.
    destruct (analyse route None w) as [[rd | m |] w1] eqn:Hone;
      try discriminate.
    intro Hrest. apply IH in Hrest. destruct Hrest as (Hlen & Hcons & Hused).
    apply analyseRoute_resolved in Hone.
    destruct Hone as (Hrd & _ & _ & _ & response & Hresp).
    rewrite length_app in Hlen. cbn [length] in *. rewrite Hresp. cbn [length].
    repeat split; try lia.
    intro Hall. apply Hcons, Forall_app. split; [exact Hall |].
    constructor; [exact Hrd | constructor].
Qed.

(** X19. [getRouteAlternatives] never rejects.  When it resolves it
    returns at most three routes, each with the statistics of its own
    points; and it is all or nothing: it returns either no route or
    one route for each of the first three the provider offered, having
    used one elevation response per route. *)
Theorem getRouteAlternatives_outcome
  (start finish : LocationData) (travelMode : TravelMode) (w : World) :
  match getRouteAlternatives ELEVATION_SAMPLE_POINTS computeDistanceBetween
          start finish travelMode w with
  | (Resolved found, w') =>
      (length found <= 3)%nat
      /\ Forall (fun routeData =>
                   stats routeData = calculateRouteStats (points routeData))
                found
      /\ (found = []
          \/ exists directionsResult later,
               directionsScript w = (Some directionsResult, "OK"%string) :: later
               /\ length found
                  = Nat.min 3 (length (routes directionsResult))
               /\ length (elevationScript w)
                  = (length (elevationScript w') + length found)%nat)
  | (Rejected _, _) => False
  | (Pending, _) => True
  end.
Proof.
  unfold getRouteAlternatives, tryCatch, await, getDirectionsWithAlternatives.
  pose proof (settleDirections_cases "Directions request failed: " w) as Hd.
  destruct (settleDirections _ w) as [[r | m |] w1].
  - destruct Hd as (later & Hscript & ->).
    destruct (analyseRoutes _ _ (firstn 3 (routes r)) [] _)
      as [[found | m |] w2] eqn:Hrun.
    + apply analyseRoutes_resolved in Hrun.
      destruct Hrun as (Hlen & Hcons & Hused).
      rewrite length_firstn in Hlen, Hused. cbn [length] in Hlen.
      cbn [elevationScript] in Hused.
      split; [lia | split; [apply Hcons; constructor |]].
      right. exists r, later. repeat split; try assumption; lia.
    + cbn. repeat split; [lia | constructor | now left].
    + exact I.
  - cbn. repeat split; [lia | constructor | now left].
  - exact I.
Qed.

(** X20. [getAccessibleRoutes] never rejects, and when it resolves it
    returns either no route or one route, consistent with its points,
    for every route the provider offered. *)
Theorem getAccessibleRoutes_outcome
  (start finish : LocationData) (accessibilityNeeds : list string)
  (w : World) :
  match getAccessibleRoutes ELEVATION_SAMPLE_POINTS computeDistanceBetween
          start finish accessibilityNeeds w with
  | (Resolved found, w') =>
      Forall (fun routeData =>
                stats routeData = calculateRouteStats (points routeData))
             found
      /\ (found = []
          \/ exists directionsResult later,
               directionsScript w = (Some directionsResult, "OK"%string) :: later
               /\ length found = length (routes directionsResult))
  | (Rejected _, _) => False
  | (Pending, _) => True
  end.
Proof.
  unfold getAccessibleRoutes, tryCatch, await, getDirectionsWithAccessibility.
  pose proof (settleDirections_cases
                "Accessible directions request failed: " w) as Hd.
  destruct (settleDirections _ w) as [[r | m |] w1].
  - destruct Hd as (later & Hscript & ->).
    destruct (analyseRoutes _ _ (routes r) [] _)
      as [[found | m |] w2] eqn:Hrun.
    + apply analyseRoutes_resolved in Hrun.
      destruct Hrun as (Hlen & Hcons & _).
      split; [apply Hcons; constructor |].
      right. exists r, later. split; [assumption | exact Hlen].
    + cbn. split; [constructor | now left].
    + exact I.
  - cbn. split; [constructor | now left].
  - exact I.
Qed.

End ServiceProofs.

(** ** Places along the route *)

Lemma findNearbyPlaces_cases location type radius w :
  match findNearbyPlaces location type radius w with
  | (Resolved found, w') =>
      placesService w = true
      /\ exists later,
           placesScript w = (Some found, "OK"%string) :: later
           /\ placesScript w' = later
           /\ placesService w' = true
  | (Rejected _, w') =>
      (placesService w = false /\ w' = w)
      \/ (placesService w' = true
          /\ exists result status,
               placesScript w = (result, status) :: placesScript w'
               /\ (status <> "OK"%string \/ result = None))
  | (Pending, w') => placesService w = true /\ placesScript w = [] /\ w' = w
  end.
Proof.
  unfold findNearbyPlaces.
  destruct (placesService w) eqn:Hservice; cbn [negb]; [| now left].
  destruct (placesScript w) as [|[results status] later];
    [repeat split |].
  destruct (String.eqb_spec status "OK") as [-> | Hne].
  - destruct results as [rs|].
    + split; [reflexivity |]. exists later. repeat split.
    + right. split; [reflexivity |]. exists None, "OK"%string. cbn.
      split; [reflexivity | now right].
  - right. split; [reflexivity |]. exists results, status. cbn.
    split; [reflexivity | now left].
Qed.

Lemma Forall_firstn {T} (P : T -> Prop) (n : nat) (l : list T) :
  Forall P l -> Forall P (firstn n l).
Proof.
  revert n. induction l as [|x l IH]; intros n Hall.
  - rewrite firstn_nil. constructor.
  - destruct n as [|n]; [constructor |].
    inversion Hall; subst. cbn. constructor; auto.
Qed.

Lemma photoLoop_outcome (todo : list RoutePoint) :
  forall photoSpots w,
    placesService w = true ->
    match photoLoop todo photoSpots w with
    | (Resolved found, w') =>
        (length found <= length photoSpots + 2 * length todo)%nat
        /\ (Forall (fun place => isGoodSpot place = true) photoSpots ->
            Forall (fun place => isGoodSpot place = true) found)
        /\ (length (placesScript w)
            <= length (placesScript w') + length todo)%nat
    | (Rejected _, _) => False
    | (Pending, _) => True
    end.
Proof.
  induction todo as [|point todo IH]; intros photoSpots w Hservice.
  - cbn. repeat split; [lia | auto | lia].
  - cbn [photoLoop]. unfold await at 1, tryCatch, await, resolve.
    pose proof (findNearbyPlaces_cases (pointLocation point)
                  "tourist_attraction" 1500 w) as Hfind.
    destruct (findNearbyPlaces _ _ _ w) as [[places | m |] w1].
    + destruct Hfind as (_ & later & Hscript & Hlater & Hservice1).
      specialize (IH (photoSpots ++ firstn 2 (filter isGoodSpot places))
                     w1 Hservice1).
      destruct (photoLoop todo _ w1) as [[found | m |] w2]; try exact IH.
      destruct IH as (Hlen & Hgood & Hused).
      rewrite length_app, length_firstn in Hlen.
      rewrite Hscript. rewrite Hlater in Hused. cbn [length].
      repeat split; try lia.
      intro Hall. apply Hgood, Forall_app. split; [exact Hall |].
      apply Forall_firstn, Forall_forall. intros place Hin.
      now apply filter_In in Hin.
    + destruct Hfind as [[Hoff _] | (Hservice1 & result & status & Hscript & _)];
        [congruence |].
      specialize (IH photoSpots w1 Hservice1).
      destruct (photoLoop todo photoSpots w1) as [[found | m' |] w2];
        try exact IH.
      destruct IH as (Hlen & Hgood & Hused).
      rewrite Hscript. cbn [length]. repeat split; try lia. exact Hgood.
    + exact I.
Qed.

(** X21. [getPhotoSpots] never rejects: a failed search is skipped.
    When it resolves it returns at most eight places, every one rated
    at least 4 and with a photo, after at most five searches; with no
    places service or no point it returns the empty list without
    searching. *)
Theorem getPhotoSpots_outcome (routePoints : list RoutePoint) (w : World) :
  match getPhotoSpots routePoints w with
  | (Resolved found, w') =>
      (length found <= 8)%nat
      /\ Forall (fun place =>
                   isGoodSpot place = true
                   /\ exists r, rating place = Some r /\ 4 <= r) found
      /\ (length (placesScript w) <= length (placesScript w') + 5)%nat
      /\ (placesService w = false \/ routePoints = [] ->
          found = [] /\ w' = w)
  | (Rejected _, _) => False
  | (Pending, _) => True
  end.
Proof.
  unfold getPhotoSpots.
  destruct (placesService w) eqn:Hservice; cbn [negb orb].
  - destruct routePoints as [|first rest]; cbn [length Nat.eqb].
    + cbn. repeat split; [lia | constructor | lia].
    + unfold await, resolve.
      pose proof (photoLoop_outcome
                    (firstn 5 (everyTenthFrom 0 (first :: rest))) [] w
                    Hservice) as Hloop.
      destruct (photoLoop _ [] w) as [[found | m |] w1]; try exact Hloop.
      destruct Hloop as (_ & Hgood & Hused).
      rewrite length_firstn in Hused.
      split; [rewrite length_firstn; lia | split; [| split]].
      * apply Forall_firstn.
        specialize (Hgood (Forall_nil _)).
        apply Forall_forall. intros place Hin.
        rewrite Forall_forall in Hgood. specialize (Hgood place Hin).
        split; [exact Hgood |].
        unfold isGoodSpot in Hgood.
        destruct (rating place) as [r|]; [| discriminate].
        exists r. split; [reflexivity |].
        apply andb_prop in Hgood. destruct Hgood as [Hrate _].
        apply andb_prop in Hrate. destruct Hrate as [_ Hrate].
        now apply Qle_bool_iff.
      * lia.
      * intros [Hoff | Hempty]; discriminate.
  - cbn. repeat split; [lia | constructor | lia].
Qed.

Lemma midPointOf_defined (routePoints : list RoutePoint) :
  routePoints <> [] -> exists midPoint, midPointOf routePoints = Some midPoint.
Proof.
  intro Hne. unfold midPointOf.
  destruct (nth_error routePoints (length routePoints / 2)) as [p|] eqn:E.
  - now exists p.
  - apply nth_error_None in E.
    destruct routePoints as [|first rest]; [contradiction |].
    pose proof (Nat.div_lt (length (first :: rest)) 2) as Hlt.
    cbn [length] in *. lia.
Qed.

Lemma findNearbyPlaces_answered location type radius w result status later :
  placesService w = true ->
  placesScript w = (result, status) :: later ->
  findNearbyPlaces location type radius w
  = (if (status =? "OK")%string
     then match result with
          | Some rs => Resolved rs
          | None => Rejected ("Places search failed: " ++ status)%string
          end
     else Rejected ("Places search failed: " ++ status)%string,
     mkWorld true (directionsScript w) (elevationScript w) later).
Proof.
  intros Hservice Hscript. unfold findNearbyPlaces.
  now rewrite Hservice, Hscript.
Qed.

Lemma findNearbyPlaces_off location type radius w :
  placesService w = false ->
  findNearbyPlaces location type radius w
  = (Rejected "Places service not initialized", w).
Proof.
  intro Hoff. unfold findNearbyPlaces. now rewrite Hoff.
Qed.

(** [Promise.all] over searches that the provider answers: it uses one
    response per search, resolves when all are good and rejects as soon
    as one is bad. *)
Lemma promiseAll_places (location : LatLng) (specs : list (string * Q)) :
  forall responses later w,
    placesService w = true ->
    placesScript w = responses ++ later ->
    length responses = length specs ->
    let run :=
      promiseAll (map (fun spec => findNearbyPlaces location
                                     (fst spec) (snd spec)) specs) w in
    snd run = mkWorld true (directionsScript w) (elevationScript w) later
    /\ match fst run with
       | Resolved found => length found = length specs
       | Rejected _ => Exists badResponse responses
       | Pending => False
       end
    /\ (Exists badResponse responses -> exists message,
          fst run = Rejected message).
Proof.
  induction specs as [|spec specs IH]; intros responses later w Hservice
    Hscript Hlen; cbn zeta.
  - destruct responses; [| discriminate]. cbn in Hscript.
    destruct w as [service ds es ps]. cbn in *. subst.
    repeat split. intro H. inversion H.
  - destruct responses as [|[result status] responses]; [discriminate |].
    cbn [map promiseAll].
    rewrite (findNearbyPlaces_answered location (fst spec) (snd spec) w
               result status (responses ++ later) Hservice Hscript).
    set (w1 := mkWorld true (directionsScript w)
                       (elevationScript w) (responses ++ later)).
    specialize (IH responses later w1 eq_refl eq_refl
                   ltac:(cbn in Hlen; lia)).
    cbn zeta in IH.
    destruct (promiseAll _ w1) as [others w2].
    destruct IH as (Hworld & Hothers & Hbad). cbn [fst snd] in *.
    split; [exact Hworld |].
    destruct (String.eqb_spec status "OK") as [-> | Hne].
    + destruct result as [rs|].
      * split.
        -- destruct others as [found | m |];
             [cbn in *; lia | now apply Exists_cons_tl | exact Hothers].
        -- intro H. inversion H as [? ? Hhead | ? ? Htail]; subst.
           ++ destruct Hhead as [Hhead | Hhead]; cbn in Hhead;
                [now contradiction Hhead | discriminate].
           ++ destruct (Hbad Htail) as [m ->]. now exists m.
      * split; [apply Exists_cons_hd; now right | intros _; eauto].
    + split; [apply Exists_cons_hd; now left | intros _; eauto].
Qed.

(** X22. [getTravelComfortInfo] never rejects.  A result it returns has
    at most 3 rest stops, 5 fuel stations, 8 restaurants, 4 hotels and
    2 medical facilities.  It returns [null] without searching for an
    empty route or a missing places service, and it is all or nothing:
    if one of the five searches fails the result is [null], the other
    four answers being used up and discarded. *)
Theorem getTravelComfortInfo_outcome
  (routePoints : list RoutePoint) (w : World) :
  match getTravelComfortInfo routePoints w with
  | (Resolved (Some info), _) =>
      (length (restStops info) <= 3 /\ length (fuelStations info) <= 5
       /\ length (restaurants info) <= 8 /\ length (hotels info) <= 4
       /\ length (medicalFacilities info) <= 2)%nat
  | (Resolved None, _) => True
  | (Rejected _, _) => False
  | (Pending, _) => True
  end
  /\ (routePoints = [] \/ placesService w = false ->
      getTravelComfortInfo routePoints w = (Resolved None, w))
  /\ (forall responses later,
        routePoints <> [] -> placesService w = true ->
        placesScript w = responses ++ later -> length responses = 5%nat ->
        Exists badResponse responses ->
        getTravelComfortInfo routePoints w
        = (Resolved None,
           mkWorld true (directionsScript w) (elevationScript w) later)).
Proof.
  unfold getTravelComfortInfo.
  destruct routePoints as [|first rest].
  { cbn. repeat split. intros ? ? Hne. now contradiction Hne. }
  destruct (midPointOf_defined (first :: rest) ltac:(discriminate))
    as [midPoint ->].
  cbn [length Nat.eqb]. set (location := pointLocation midPoint).
  split; [| split].
  - unfold tryCatch, await.
    destruct (promiseAll _ w) as [[found | m |] w1]; [| exact I | exact I].
    destruct found as [|a [|b [|c [|d [|e [|f more]]]]]];
      unfold resolve, throw;
      cbn [restStops fuelStations restaurants hotels medicalFacilities];
      try exact I.
    rewrite !length_firstn. repeat split; lia.
  - intros [Hempty | Hoff]; [discriminate |].
    unfold tryCatch, await. cbn [promiseAll].
    repeat (rewrite (findNearbyPlaces_off _ _ _ w Hoff); cbn beta iota).
    reflexivity.
  - intros responses later _ Hservice Hscript Hlen Hbad.
    pose proof (promiseAll_places location
                  [("rest_stop"%string, 10000); ("gas_station"%string, 15000);
                   ("restaurant"%string, 5000); ("lodging"%string, 20000);
                   ("hospital"%string, 25000)]
                  responses later w Hservice Hscript Hlen) as Hall.
    cbn zeta in Hall. cbn [map fst snd] in Hall.
    unfold tryCatch, await.
    destruct (promiseAll _ w) as [outcome w1].
    destruct Hall as (Hworld & _ & Hrejects). cbn [fst snd] in *.
    destruct (Hrejects Hbad) as [m ->]. subst w1. reflexivity.
Qed.

(** X23. [getHikingTrailInfo] never rejects.  A result it returns has
    at most 3 trailheads and 5 water sources, and carries the hiking
    difficulty and the terrain tags of the same points.  If the first
    search fails it returns [null] at once: the second search is not
    made. *)
Theorem getHikingTrailInfo_outcome
  (routePoints : list RoutePoint) (w : World) :
  match getHikingTrailInfo routePoints w with
  | (Resolved (Some info), w') =>
      (length (trailheads info) <= 3)%nat
      /\ (length (waterSources info) <= 5)%nat
      /\ trail_difficulty info = calculateHikingDifficulty routePoints
      /\ terrainAnalysis info = analyzeHikingTerrain routePoints
      /\ exists first second,
           placesScript w = first :: second :: placesScript w'
  | (Resolved None, _) => True
  | (Rejected _, _) => False
  | (Pending, _) => True
  end
  /\ (forall response later,
        routePoints <> [] -> placesService w = true ->
        placesScript w = response :: later -> badResponse response ->
        getHikingTrailInfo routePoints w
        = (Resolved None,
           mkWorld true (directionsScript w) (elevationScript w) later)).
Proof.
  unfold getHikingTrailInfo.
  destruct routePoints as [|first rest].
  { cbn. split; [exact I |]. intros ? ? Hne. now contradiction Hne. }
  destruct (midPointOf_defined (first :: rest) ltac:(discriminate))
    as [midPoint ->].
  cbn [length Nat.eqb]. set (location := pointLocation midPoint).
  set (routePoints := first :: rest). split.
  - unfold tryCatch, await.
    pose proof (findNearbyPlaces_cases location "park" 5000 w) as H1.
    destruct (findNearbyPlaces location "park" 5000 w)
      as [[parks | m |] w1]; [| exact I | exact I].
    destruct H1 as (_ & later1 & Hscript1 & Hlater1 & Hservice1).
    pose proof (findNearbyPlaces_cases location "natural_feature" 2000 w1)
      as H2.
    destruct (findNearbyPlaces location "natural_feature" 2000 w1)
      as [[water | m |] w2]; [| exact I | exact I].
    destruct H2 as (_ & later2 & Hscript2 & Hlater2 & _).
    unfold resolve.
    cbn [trailheads waterSources trail_difficulty terrainAnalysis].
    rewrite !length_firstn.
    repeat split; try lia.
    eexists. eexists. rewrite Hscript1, <- Hlater1, Hscript2, Hlater2.
    reflexivity.
  - intros [result status] later _ Hservice Hscript Hbad.
    unfold tryCatch, await, findNearbyPlaces at 1.
    rewrite Hservice, Hscript. cbn [negb].
    destruct Hbad as [Hbad | Hbad]; cbn [fst snd] in Hbad.
    + apply String.eqb_neq in Hbad. rewrite Hbad. reflexivity.
    + subst result. destruct (status =? "OK")%string; reflexivity.
Qed.

(** ** The alert list of the safety panel *)

Lemma fetchAlerts_none (routeData : RouteData) :
  (length (fetchAlerts routeData) <= 6)%nat
  /\ (fetchAlerts routeData = [] ->
      (length (points routeData) <= 50)%nat
      /\ maxElevation (stats routeData) <= 1500
      /\ (75 <= getSafetyScore (stats routeData))%Z).
Proof.
  unfold fetchAlerts. rewrite getSafetyScore_deductions.
  set (routePoints := points routeData).
  set (route := stats routeData).
  unfold getTrafficInfo, weatherAlerts, terrainAlerts, pushIf,
    gradePenalty, gainPenalty, distancePenalty.
  destruct (Nat.ltb_spec 50 (length routePoints)) as [Hmany | Hfew];
    destruct (5 <? length (steepSections routePoints))%nat;
    case_gtb (maxElevation route) 1500;
    case_gtb (maxGrade route) 20; case_gtb (maxGrade route) 15;
    case_gtb (maxGrade route) 10;
    case_gtb (totalElevationGain route) 1000;
    case_gtb (totalElevationGain route) 500;
    case_gtb (totalDistance route) 20000;
    case_gtb (totalDistance route) 10000;
    try (exfalso; lra);
    (split; [cbn; lia |]); intros Hnone;
    try discriminate Hnone;
    (split; [exact Hfew | split; [exact Hcmp | lia]]).
Qed.

(** X24. The panel never holds more than six alerts, and it holds none
    when the route data, the service or the points are missing.  When
    all three are there and it still holds none, so that the all-clear
    banner stands for a checked route, the route has at most 50
    points, a maximum elevation of at most 1500 and a safety score of
    at least 75.  The banner also shows for a route that was not
    checked: with route data but no service, or with no points. *)
Theorem fetchAlerts_all_clear
  (routeData : option RouteData) (routeService : bool) :
  (length (alertsEffect routeData routeService) <= 6)%nat
  /\ (routeData = None \/ routeService = false
      \/ (exists data, routeData = Some data /\ points data = []) ->
      alertsEffect routeData routeService = [])
  /\ (forall data,
        routeData = Some data -> routeService = true ->
        points data <> [] ->
        alertsEffect routeData routeService = [] ->
        (length (points data) <= 50)%nat
        /\ maxElevation (stats data) <= 1500
        /\ (75 <= getSafetyScore (stats data))%Z)
  /\ (forall data,
        routeData = Some data ->
        routeService = false \/ points data = [] ->
        allClear routeData routeService = true).
Proof.
  split; [| split; [| split]].
  - destruct routeData as [data|]; [| cbn; lia].
    unfold alertsEffect.
    destruct (negb routeService || (length (points data) =? 0)%nat);
      [cbn; lia | apply fetchAlerts_none].
  - intros [-> | [-> | (data & -> & Hnone)]].
    + reflexivity.
    + destruct routeData; reflexivity.
    + unfold alertsEffect. rewrite Hnone. cbn [length Nat.eqb].
      now rewrite orb_true_r.
  - intros data -> -> Hpoints. unfold alertsEffect.
    assert (Hlength : (length (points data) =? 0)%nat = false).
    { destruct (points data); [now contradiction Hpoints | reflexivity]. }
    rewrite Hlength. cbn [negb orb]. apply fetchAlerts_none.
  - intros data -> Hmissing. unfold allClear, alertsEffect.
    destruct Hmissing as [-> | ->]; [reflexivity |].
    cbn [length Nat.eqb]. now rewrite orb_true_r.
Qed.

Lemma fetchAlerts_all_clear_witness :
  (75 <= getSafetyScore gentleStats)%Z
  /\ allClear (Some (mkRouteData standingRoute demandingStats None)) false
     = true.
Proof.
  split.
  - apply (proj1 (proj2 (proj2
             (fetchAlerts_all_clear
                (Some (mkRouteData standingRoute gentleStats None)) true)))
             (mkRouteData standingRoute gentleStats None));
      [reflexivity | reflexivity | discriminate | reflexivity].
  - apply (proj2 (proj2 (proj2
             (fetchAlerts_all_clear
                (Some (mkRouteData standingRoute demandingStats None))
                false)))
             (mkRouteData standingRoute demandingStats None));
      [reflexivity | left; reflexivity].
Defined.

(** ** The time label of the route card *)

Lemma remainder_sixty (minutes : Q) :
  0 <= minutes ->
  remainder minutes 60 == minutes - 60 * inject_Z (Qfloor (minutes / 60))
  /\ 0 <= remainder minutes 60 < 60
  /\ (0 <= Qfloor (minutes / 60))%Z.
Proof.
  intro Hpos.
  assert (Hq : 0 <= minutes / 60).
  { apply Qle_shift_div_l; [reflexivity | lra]. }
  unfold remainder. rewrite (proj2 (Qle_bool_iff 0 (minutes / 60)) Hq).
  pose proof (Qfloor_le (minutes / 60)) as Hlo.
  pose proof (Qlt_floor (minutes / 60)) as Hhi.
  rewrite inject_Z_plus in Hhi. change (inject_Z 1) with 1 in Hhi.
  assert (Hmin : minutes == 60 * (minutes / 60)) by field.
  set (h := inject_Z (Qfloor (minutes / 60))) in *.
  set (q := minutes / 60) in *.
  split; [reflexivity | split; [split |]].
  - rewrite Hmin at 1. lra.
  - rewrite Hmin at 1. lra.
  - change 0%Z with (Qfloor 0). now apply Qfloor_resp_le.
Qed.

(** X25. For a time between 0 and [10^15] minutes, [formatTime] shows
    whole hours [h], between 0 and 16666666666666 (so below [2^53],
    and printed digit for digit), and minutes [m] between 0 and 60
    inclusive
    with [60 h + m] within half a minute of the time; the hours are
    shown only when positive.  The minutes are rounded after the hours
    are cut off, which is why 60 can appear. *)
Theorem formatTime_parts (minutes : Q) :
  0 <= minutes <= 1000000000000000 ->
  exists hours mins : Z,
    (0 <= hours <= 16666666666666)%Z /\ (0 <= mins <= 60)%Z
    /\ inject_Z (60 * hours + mins) - (1 # 2) <= minutes
    /\ minutes < inject_Z (60 * hours + mins) + (1 # 2)
    /\ formatTime minutes
       = if (0 <? hours)%Z
         then (showInteger hours ++ "h " ++ showInteger mins ++ "m")%string
         else (showInteger mins ++ "m")%string.
Proof.
  intros [Hpos Hbound].
  destruct (remainder_sixty minutes Hpos) as (Hr & [Hr0 Hr60] & Hh).
  assert (Hhours : (Qfloor (minutes / 60) <= 16666666666666)%Z).
  { change 16666666666666%Z with (Qfloor (1000000000000000 / 60)).
    apply Qfloor_resp_le. unfold Qdiv. change (/ 60) with (1 # 60). lra. }
  exists (Qfloor (minutes / 60)), (Qfloor (remainder minutes 60 + (1 # 2))).
  pose proof (Qfloor_le (remainder minutes 60 + (1 # 2))) as Hlo.
  pose proof (Qlt_floor (remainder minutes 60 + (1 # 2))) as Hhi.
  rewrite inject_Z_plus in Hhi. change (inject_Z 1) with 1 in Hhi.
  assert (Hm0 : (0 <= Qfloor (remainder minutes 60 + (1 # 2)))%Z).
  { change 0%Z with (Qfloor 0). apply Qfloor_resp_le. lra. }
  assert (Hm60 : (Qfloor (remainder minutes 60 + (1 # 2)) <= 60)%Z).
  { apply Z.lt_succ_r. rewrite Zlt_Qlt. change (inject_Z (Z.succ 60)) with 61.
    lra. }
  rewrite inject_Z_plus, inject_Z_mult. change (inject_Z 60) with 60.
  repeat split; try assumption; lra.
Qed.

Lemma formatTime_parts_witness :
  exists hours mins : Z,
    (0 <= hours <= 16666666666666)%Z /\ (0 <= mins <= 60)%Z
    /\ inject_Z (60 * hours + mins) - (1 # 2) <= (239 # 2)
    /\ (239 # 2) < inject_Z (60 * hours + mins) + (1 # 2)
    /\ formatTime (239 # 2)
       = if (0 <? hours)%Z
         then (showInteger hours ++ "h " ++ showInteger mins ++ "m")%string
         else (showInteger mins ++ "m")%string.
Proof.
  apply (formatTime_parts (239 # 2)). split; discriminate.
Defined.

(** A time of 119.5 minutes is shown with 60 in the minutes place. *)
Example formatTime_sixty : formatTime (239 # 2) = "1h 60m"%string.
Proof. reflexivity. Qed.

(** ** The properties above at concrete inputs *)

Lemma elevation_extremes_witness :
  minElevation (calculateRouteStats downhillRoute) <= 250
  /\ 250 <= maxElevation (calculateRouteStats downhillRoute).
Proof.
  apply (proj1 (elevation_extremes (mkRoutePoint 0 0 300 0)
                  [mkRoutePoint 0 (1 # 100) 250 1000;
                   mkRoutePoint 0 (2 # 100) 100 2000])
           (mkRoutePoint 0 (1 # 100) 250 1000)).
  right. left. reflexivity.
Defined.

Lemma getSafetyScore_range_witness :
  getScoreIcon (getSafetyScore demandingStats) = AlertTriangleIcon.
Proof.
  apply (getSafetyScore_range demandingStats). reflexivity.
Defined.

Lemma terrainAlerts_and_score_witness :
  (getSafetyScore demandingStats <= 90)%Z.
Proof.
  apply (terrainAlerts_and_score demandingStats). discriminate.
Defined.

Lemma analyzeHikingTerrain_tags_witness :
  analyzeHikingTerrain standingRoute = ["Moderate terrain"%string].
Proof.
  apply (analyzeHikingTerrain_tags standingRoute). cbn.
  repeat split; discriminate.
Defined.

Lemma calculateRoute_failure_witness :
  fst (calculateRoute 50 planarDistance exampleStart exampleFinish
                      WALKING None refusingWorld)
  = Rejected calculateRouteFailure.
Proof.
  apply (proj2 (calculateRoute_failure 50 planarDistance exampleStart
                  exampleFinish WALKING None refusingWorld)
           None "ZERO_RESULTS"%string []);
    [reflexivity | left; discriminate].
Defined.

Lemma calculateRoute_resolved_witness :
  let routeData :=
    mkRouteData (createRoutePoints planarDistance exampleElevations examplePath)
                (calculateRouteStats
                   (createRoutePoints planarDistance exampleElevations
                                      examplePath))
                None in
  stats routeData = calculateRouteStats (points routeData)
  /\ waypoints routeData = None.
Proof.
  intro routeData.
  destruct (calculateRoute_resolved 50 planarDistance exampleStart
              exampleFinish WALKING None answeringWorld
              (mkWorld true [] [] [(Some [photogenicPlace], "OK"%string)])
              routeData eq_refl) as (Hstats & Hstops & _ & _).
  split; assumption.
Defined.

Lemma getPhotoSpots_outcome_witness :
  getPhotoSpots [] answeringWorld = (Resolved [], answeringWorld).
Proof.
  pose proof (getPhotoSpots_outcome [] answeringWorld) as H.
  destruct (getPhotoSpots [] answeringWorld) as [[found | m |] w'] eqn:E;
    [| contradiction | discriminate E].
  destruct H as (_ & _ & _ & H).
  destruct (H (or_intror eq_refl)) as [-> ->]. reflexivity.
Defined.

Lemma getTravelComfortInfo_outcome_witness :
  getTravelComfortInfo [] answeringWorld = (Resolved None, answeringWorld).
Proof.
  apply (getTravelComfortInfo_outcome [] answeringWorld). left. reflexivity.
Defined.

Lemma getHikingTrailInfo_outcome_witness :
  getHikingTrailInfo downhillRoute refusingWorld
  = (Resolved None,
     mkWorld true [(None, "ZERO_RESULTS"%string)]
             [(Some exampleElevations, "OK"%string)]
             [(Some [photogenicPlace], "OK"%string)]).
Proof.
  apply (proj2 (getHikingTrailInfo_outcome downhillRoute refusingWorld)
           (None, "OVER_QUERY_LIMIT"%string)
           [(Some [photogenicPlace], "OK"%string)]);
    [discriminate | reflexivity | reflexivity | left; discriminate].
Defined.

